(* ===================================================================== *)
(* easysearch:core, lib/core/search-collection.js                         *)
(*                                                                         *)
(* A shallow embedding of the SearchCollection class: the publication     *)
(* handler installed by _setUpPublication, the timers and stop callbacks  *)
(* it registers, the observe callbacks, and the client side find.         *)
(* ===================================================================== *)

From stdpp Require Import gmap strings list fin_maps pretty sorting.
From Stdlib Require Import ZArith Ascii String.

Set Warnings "-register-all".

Local Open Scope string_scope.
Local Open Scope Z_scope.

(* ===================================================================== *)
(* JavaScript values                                                       *)
(* ===================================================================== *)

(** The JavaScript values the class handles.  Numbers are the integers
    (positions, counts and intervals are integers in this code) and NaN,
    strings are ASCII, an object is the list of its own properties in insertion
    order. *)
Inductive JSValue : Type :=
| JUndefined
| JNull
| JBool (b : bool)
| JNum (n : Z)
| JNaN
| JStr (s : string)
| JArr (items : list JSValue)
| JObj (props : list (string * JSValue)).

(** ToBoolean: what `if (v)`, `v && ...` and `v || ...` test. *)
Definition truthy (v : JSValue) : bool :=
  match v with
  | JUndefined | JNull => false
  | JBool b => b
  | JNum n => negb (n =? 0)
  | JNaN => false
  | JStr s => negb (String.eqb s EmptyString)
  | JArr _ | JObj _ => true
  end.


(** Joins strings with a separator, as Array.prototype.join does. *)
Fixpoint join (sep : string) (l : list string) : string :=
  match l with
  | [] => EmptyString
  | [s] => s
  | s :: rest => s ++ sep ++ join sep rest
  end.

(** ToString, the conversion `+` applies to its right operand when the
    left one is a string. *)
Fixpoint toString (v : JSValue) : string :=
  match v with
  | JUndefined => "undefined"
  | JNull => "null"
  | JBool true => "true"
  | JBool false => "false"
  | JNum n => pretty n
  | JNaN => "NaN"
  | JStr s => s
  | JArr items =>
      join ","
        ((fix each (l : list JSValue) : list string :=
            match l with
            | [] => []
            | JUndefined :: r | JNull :: r => EmptyString :: each r
            | x :: r => toString x :: each r
            end) items)
  | JObj _ => "[object Object]"
  end.

(** ToPrimitive: arrays and plain objects become their string. *)
Definition toPrimitive (v : JSValue) : JSValue :=
  match v with
  | JArr _ | JObj _ => JStr (toString v)
  | _ => v
  end.

(** ToNumber on the primitives that are not strings; None is NaN. *)
Definition toNumber (v : JSValue) : option Z :=
  match v with
  | JNull | JBool false => Some 0
  | JBool true => Some 1
  | JNum n => Some n
  | _ => None
  end.

(** The operator `a + b`: concatenation as soon as one operand is a string
    once made primitive, the sum of the numbers otherwise. *)
Definition js_plus (a b : JSValue) : JSValue :=
  match toPrimitive a, toPrimitive b with
  | JStr x, pb => JStr (x ++ toString pb)
  | pa, JStr y => JStr (toString pa ++ y)
  | pa, pb =>
      match toNumber pa, toNumber pb with
      | Some x, Some y => JNum (x + y)
      | _, _ => JNaN
      end
  end.

(** `a || b`. *)
Definition js_or (a b : JSValue) : JSValue := if truthy a then a else b.

(* --------------------------------------------------------------------- *)
(* JSON.stringify                                                          *)
(* --------------------------------------------------------------------- *)

Definition hex_digit (n : N) : ascii :=
  match n with
  | 0%N => "0" | 1%N => "1" | 2%N => "2" | 3%N => "3" | 4%N => "4"
  | 5%N => "5" | 6%N => "6" | 7%N => "7" | 8%N => "8" | 9%N => "9"
  | 10%N => "a" | 11%N => "b" | 12%N => "c" | 13%N => "d" | 14%N => "e"
  | _ => "f"
  end%char.

Definition dquote : string := String (ascii_of_N 34) EmptyString.
Definition bslash : string := String (ascii_of_N 92) EmptyString.

(** The escape JSON.stringify writes for one character of a string: a
    backslash before a quote and before a backslash, the short escapes
    b, f, n, r, t, and u00XX for the other control characters. *)
Definition escape_char (c : ascii) : string :=
  let n := N_of_ascii c in
  if (n =? 34)%N then bslash ++ dquote
  else if (n =? 92)%N then bslash ++ bslash
  else if (n =? 8)%N then bslash ++ "b"
  else if (n =? 12)%N then bslash ++ "f"
  else if (n =? 10)%N then bslash ++ "n"
  else if (n =? 13)%N then bslash ++ "r"
  else if (n =? 9)%N then bslash ++ "t"
  else if (n <? 32)%N then
    bslash ++ "u00"
      ++ String (hex_digit (n / 16)) (String (hex_digit (n mod 16)) EmptyString)
  else String c EmptyString.

Fixpoint escape (s : string) : string :=
  match s with
  | EmptyString => EmptyString
  | String c r => escape_char c ++ escape r
  end.

(** QuoteJSONString. *)
Definition quote (s : string) : string := dquote ++ escape s ++ dquote.

(** JSON.stringify(v): None is the JavaScript `undefined` it returns for
    `undefined`; inside an array `undefined` is written as null, inside an
    object a property whose value is `undefined` is left out. *)
Fixpoint stringify (v : JSValue) : option string :=
  match v with
  | JUndefined => None
  | JNull => Some "null"
  | JBool true => Some "true"
  | JBool false => Some "false"
  | JNum n => Some (pretty n)
  | JNaN => Some "null"
  | JStr s => Some (quote s)
  | JArr items =>
      Some ("[" ++ join ","
        ((fix each (l : list JSValue) : list string :=
            match l with
            | [] => []
            | x :: r => default "null" (stringify x) :: each r
            end) items) ++ "]")
  | JObj props =>
      Some ("{" ++ join ","
        ((fix each (l : list (string * JSValue)) : list string :=
            match l with
            | [] => []
            | (k, x) :: r =>
                match stringify x with
                | Some sx => (quote k ++ ":" ++ sx) :: each r
                | None => each r
                end
            end) props) ++ "}")
  end.

(** A value of type `undefined | string` as a JSValue. *)
Definition of_ostring (o : option string) : JSValue :=
  match o with Some s => JStr s | None => JUndefined end.

(* ===================================================================== *)
(* Documents, configuration, engine, cursor                                *)
(* ===================================================================== *)

(** A document is a JavaScript object used as a record: its properties by
    name, `_id` among them. *)
Abbreviation Doc := (gmap string JSValue).

(** `doc.key`: `undefined` when the property is absent. *)
Definition prop (doc : Doc) (key : string) : JSValue :=
  default JUndefined (doc !! key).

(** The positional diff events of `observe`, with the arguments Meteor
    passes to the callback of the same name.  `before` is the id of the
    following document, or null. *)
Inductive DiffEvent : Type :=
| addedAt (doc : Doc) (atIndex : Z) (before : JSValue)
| changedAt (doc oldDoc : Doc) (atIndex : Z)
| movedTo (doc : Doc) (fromIndex toIndex : Z) (before : JSValue)
| removedAt (doc : Doc) (atIndex : Z).

(** The index configuration, as far as this class reads it.  The Mongo
    collection `indexConfiguration.collection` changes over time and is
    passed to the step that reads it. *)
Record IndexConfiguration : Type := {
  name : option string;                       (* String or null *)
  permission : Doc -> bool;
  countUpdateIntervalMs : JSValue;
  aggsUpdateIntervalMs : JSValue
}.

(** What `engine.search` returns, read at one moment: `cursor.count()`,
    `cursor.mongoCursor.count()`, `cursor._aggs`, and the ordered documents
    `cursor.mongoCursor` holds. *)
Record Cursor : Type := {
  cursor_count : Z;
  mongoCursor_count : Z;
  _aggs : JSValue;
  mongoCursor_docs : list Doc
}.

(** The reactive engine: `engine.config.indexName`,
    `engine.checkSearchParam` (false when it throws), `engine.search`,
    and the hooks `engine.config.beforePublish(kind, doc, ...args)` and
    `engine.config.transform(doc)`, taken as functions of their
    arguments; the kind and the arguments of beforePublish are those of
    the diff event. *)
Record ReactiveEngine : Type := {
  indexName : option string;
  checkSearchParam : JSValue -> IndexConfiguration -> bool;
  search : JSValue -> Doc -> IndexConfiguration -> Cursor;
  beforePublish : DiffEvent -> Doc;
  transform : Doc -> Doc
}.

(** The fields the constructor sets. *)
Record SearchCollection : Type := {
  _indexConfiguration : IndexConfiguration;
  _engine : ReactiveEngine;
  mongoCount : bool
}.

(** `this._name`, lines 33-39: a template literal prints null as "null". *)
Definition _name (self : SearchCollection) : string :=
  let n := match name (_indexConfiguration self) with Some s => s | None => "null" end in
  match indexName (_engine self) with
  | Some i => if String.eqb i EmptyString then n ++ "/easySearch" else n ++ "/" ++ i
  | None => n ++ "/easySearch"
  end.

(** generateId, line 143. *)
Definition generateId (doc : Doc) : JSValue :=
  js_plus (js_plus (prop doc "_id") (prop doc "__searchDefinition"))
          (prop doc "__searchOptions").

(** addCustomFields, lines 153-159: `_.forEach` visits the properties of
    `data` in insertion order.  `data` is an object that `_.forEach` takes
    as an object, as the object literals of this class are: it has no
    property `length`. *)
Definition addCustomFields (doc : Doc) (data : list (string * JSValue)) : Doc :=
  foldl (fun d kv => <["__" ++ kv.1 := kv.2]> d) doc data.

(* ===================================================================== *)
(* The publication context and Meteor's timers                             *)
(* ===================================================================== *)

(** The two interval callbacks of the handler, with the constants of the
    subscription their closures capture.  The `cursor` the first one reads
    is a live object: its state at the time of the tick is an argument of
    the tick.  The `aggs` of the second is the constant of line 215, the
    value `cursor._aggs` had when the handler ran. *)
Inductive TimerCallback : Type :=
| CountTick (definitionString : option string)
| AggsTick (definitionString : option string) (aggs : JSValue).

(** The two functions given to `this.onStop`, lines 234 and 291. *)
Inductive StopCallback : Type :=
| StopFirst
| StopSecond.

(** Every call the handler and its callbacks make on the publication
    context, on Meteor, on the engine and on the observe handle, in the
    order they are made. *)
Inductive Call : Type :=
| permission_call (options : Doc)
| checkSearchParam_call (searchDefinition : JSValue)
| search_call (searchDefinition : JSValue) (options : Doc)
| added (collectionName : string) (id : JSValue) (fields : Doc)
| changed (collectionName : string) (id : JSValue) (fields : Doc)
| removed (collectionName : string) (id : JSValue)
| ready
| setInterval (callback : TimerCallback) (ms : JSValue) (handle : nat)
| clearInterval (handle : nat)
| observe
| handle_stop.

(** The handle `observe` returns, with what its callbacks captured and
    the number of times `stop()` was called on it. *)
Record ObserveHandle : Type := {
  obs_definitionString : option string;
  obs_optionsString : option string;
  obs_stops : nat
}.

(** One subscription: the publication context `this` (its `userId`, its
    property `mongoCount`, the stop callbacks Meteor holds for it and
    whether Meteor deactivated it), Meteor's running intervals, and the
    `let` variables of the handler that its closures share. *)
Record Session : Type := {
  calls : list Call;
  userId : JSValue;
  this_mongoCount : JSValue;
  deactivated : bool;
  stopCallbacks : list StopCallback;
  intervals : gmap nat TimerCallback;
  nextHandle : nat;
  intervalID : option nat;
  intervalAggsID : option nat;
  resultsHandle : option ObserveHandle
}.

(** The context Meteor creates for a subscription of user `uid`: it has no
    property `mongoCount`. *)
Definition new_session (uid : JSValue) : Session :=
  {| calls := []; userId := uid; this_mongoCount := JUndefined;
     deactivated := false; stopCallbacks := []; intervals := ∅;
     nextHandle := 1%nat; intervalID := None; intervalAggsID := None;
     resultsHandle := None |}.

Inductive Error : Type :=
| Match_Error
| not_allowed
| engine_error
| TypeError.

Inductive Outcome (A : Type) : Type :=
| Ok (a : A)
| Throw (e : Error).
Arguments Ok {A} a.
Arguments Throw {A} e.

(** Computations over a session that may throw. *)
Definition M (A : Type) : Type := Session -> Outcome A * Session.

#[export] Instance M_ret : MRet M := fun A a s => (Ok a, s).
#[export] Instance M_bind : MBind M := fun A B f m s =>
  match m s with
  | (Ok a, s') => f a s'
  | (Throw e, s') => (Throw e, s')
  end.

Definition throw {A} (e : Error) : M A := fun s => (Throw e, s).
Definition get : M Session := fun s => (Ok s, s).
Definition modify (f : Session -> Session) : M unit := fun s => (Ok tt, f s).

Definition skip : M unit := mret tt.

(** The session after the calls `cs` were made; nothing else changes. *)
Definition emit (cs : list Call) (s : Session) : Session :=
  {| calls := calls s ++ cs; userId := userId s;
     this_mongoCount := this_mongoCount s; deactivated := deactivated s;
     stopCallbacks := stopCallbacks s; intervals := intervals s;
     nextHandle := nextHandle s; intervalID := intervalID s;
     intervalAggsID := intervalAggsID s; resultsHandle := resultsHandle s |}.

Definition log (c : Call) : M unit := modify (emit [c]).

(** Meteor.setInterval: a fresh, truthy handle; the interval runs until
    it is cleared. *)
Definition Meteor_setInterval (cb : TimerCallback) (ms : JSValue) : M nat :=
  s ← get;
  let h := nextHandle s in
  modify (fun s => {| calls := calls s; userId := userId s;
    this_mongoCount := this_mongoCount s; deactivated := deactivated s;
    stopCallbacks := stopCallbacks s; intervals := <[h := cb]> (intervals s);
    nextHandle := S h; intervalID := intervalID s;
    intervalAggsID := intervalAggsID s; resultsHandle := resultsHandle s |});;
  log (setInterval cb ms h);;
  mret h.

(** Meteor.clearInterval. *)
Definition Meteor_clearInterval (h : nat) : M unit :=
  modify (fun s => {| calls := calls s; userId := userId s;
    this_mongoCount := this_mongoCount s; deactivated := deactivated s;
    stopCallbacks := stopCallbacks s; intervals := delete h (intervals s);
    nextHandle := nextHandle s; intervalID := intervalID s;
    intervalAggsID := intervalAggsID s; resultsHandle := resultsHandle s |});;
  log (clearInterval h).

Definition set_intervalID (v : option nat) : M unit :=
  modify (fun s => {| calls := calls s; userId := userId s;
    this_mongoCount := this_mongoCount s; deactivated := deactivated s;
    stopCallbacks := stopCallbacks s; intervals := intervals s;
    nextHandle := nextHandle s; intervalID := v;
    intervalAggsID := intervalAggsID s; resultsHandle := resultsHandle s |}).

Definition set_resultsHandle (v : option ObserveHandle) : M unit :=
  modify (fun s => {| calls := calls s; userId := userId s;
    this_mongoCount := this_mongoCount s; deactivated := deactivated s;
    stopCallbacks := stopCallbacks s; intervals := intervals s;
    nextHandle := nextHandle s; intervalID := intervalID s;
    intervalAggsID := intervalAggsID s; resultsHandle := v |}).

(** `resultsHandle.stop()`. *)
Definition resultsHandle_stop (h : ObserveHandle) : M unit :=
  set_resultsHandle (Some {| obs_definitionString := obs_definitionString h;
    obs_optionsString := obs_optionsString h; obs_stops := S (obs_stops h) |});;
  log handle_stop.

(** The bodies of the two stop callbacks, lines 234-238 and 291-293. *)
Definition run_stop (cb : StopCallback) : M unit :=
  match cb with
  | StopFirst =>
      s ← get;
      match intervalID s with Some h => Meteor_clearInterval h | None => skip end;;
      match intervalAggsID s with Some h => Meteor_clearInterval h | None => skip end;;
      s ← get;
      match resultsHandle s with Some h => resultsHandle_stop h | None => skip end
  | StopSecond =>
      s ← get;
      match resultsHandle s with Some h => resultsHandle_stop h | None => throw TypeError end
  end.

(** this.onStop(cb): Meteor keeps the callback for the stop of the
    subscription, or runs it at once when the subscription is already
    deactivated. *)
Definition onStop (cb : StopCallback) : M unit :=
  s ← get;
  if deactivated s then run_stop cb
  else modify (fun s => {| calls := calls s; userId := userId s;
    this_mongoCount := this_mongoCount s; deactivated := deactivated s;
    stopCallbacks := stopCallbacks s ++ [cb]; intervals := intervals s;
    nextHandle := nextHandle s; intervalID := intervalID s;
    intervalAggsID := intervalAggsID s; resultsHandle := resultsHandle s |}).

Fixpoint run_stops (cbs : list StopCallback) : M unit :=
  match cbs with
  | [] => skip
  | cb :: rest => run_stop cb;; run_stops rest
  end.

(** The stop of a subscription, as Meteor performs it: nothing when it is
    already deactivated; otherwise it is marked deactivated and each stop
    callback runs once, in the order of registration. *)
Definition stop : M unit :=
  s ← get;
  if deactivated s then skip
  else
    modify (fun s => {| calls := calls s; userId := userId s;
      this_mongoCount := this_mongoCount s; deactivated := true;
      stopCallbacks := []; intervals := intervals s;
      nextHandle := nextHandle s; intervalID := intervalID s;
      intervalAggsID := intervalAggsID s; resultsHandle := resultsHandle s |});;
    run_stops (stopCallbacks s).

(** `collection.findOne(before)` on the Mongo collection, whose documents
    are kept by id: an id selects its document, null selects nothing. *)
Definition findOne (collection : gmap string Doc) (selector : JSValue) : option Doc :=
  match selector with
  | JStr id => collection !! id
  | _ => None
  end.

Section Publication.

Variable collectionScope : SearchCollection.

Let collectionName : string := _name collectionScope.
Let config : IndexConfiguration := _indexConfiguration collectionScope.
Let engine : ReactiveEngine := _engine collectionScope.

(** The callback of the count interval, lines 197-210.  `this` is the
    publication context: the arrow function sits in the handler.  In
    `cursor.count && cursor.count() || 0` the method `cursor.count` is
    there, line 191 called it. *)
Definition count_tick (definitionString : option string) (cursor : Cursor) : M unit :=
  this ← get;
  let newCount :=
    if truthy (this_mongoCount this)
    then JNum (mongoCursor_count cursor)
    else js_or (JNum (cursor_count cursor)) (JNum 0) in
  log (changed collectionName
         (js_plus (JStr "searchCount") (of_ostring definitionString))
         {[ "count" := newCount ]}).

(** The callback of the aggregation interval, lines 225-229. *)
Definition aggs_tick (definitionString : option string) (aggs : JSValue) : M unit :=
  log (changed collectionName
         (js_plus (JStr "aggs") (of_ostring definitionString))
         {[ "aggs" := aggs ]}).

Definition run_timer (cb : TimerCallback) (cursor : Cursor) : M unit :=
  match cb with
  | CountTick definitionString => count_tick definitionString cursor
  | AggsTick definitionString aggs => aggs_tick definitionString aggs
  end.

(** The observe callbacks, lines 241-288. *)
Definition on_addedAt (definitionString optionsString : option string)
    (doc : Doc) (atIndex : Z) (before : JSValue) : M unit :=
  let doc := beforePublish engine (addedAt doc atIndex before) in
  let doc := addCustomFields doc
    [("searchDefinition", of_ostring definitionString);
     ("searchOptions", of_ostring optionsString);
     ("sortPosition", JNum atIndex);
     ("originalId", prop doc "_id")] in
  log (added collectionName (generateId doc) doc).

Definition on_changedAt (definitionString optionsString : option string)
    (doc oldDoc : Doc) (atIndex : Z) : M unit :=
  let doc := beforePublish engine (changedAt doc oldDoc atIndex) in
  let doc := addCustomFields doc
    [("searchDefinition", of_ostring definitionString);
     ("searchOptions", of_ostring optionsString);
     ("sortPosition", JNum atIndex);
     ("originalId", prop doc "_id")] in
  log (changed collectionName (generateId doc) doc).

Definition on_movedTo (definitionString optionsString : option string)
    (collection : gmap string Doc)
    (doc : Doc) (fromIndex toIndex : Z) (before : JSValue) : M unit :=
  let doc := beforePublish engine (movedTo doc fromIndex toIndex before) in
  let doc := addCustomFields doc
    [("searchDefinition", of_ostring definitionString);
     ("searchOptions", of_ostring optionsString);
     ("sortPosition", JNum toIndex)] in
  match findOne collection before with
  | Some beforeDoc =>
      let beforeDoc := addCustomFields beforeDoc
        [("searchDefinition", of_ostring definitionString);
         ("searchOptions", of_ostring optionsString);
         ("sortPosition", JNum fromIndex)] in
      log (changed collectionName (generateId beforeDoc) beforeDoc)
  | None => skip
  end;;
  log (changed collectionName (generateId doc) doc).

Definition on_removedAt (definitionString optionsString : option string)
    (doc : Doc) (atIndex : Z) : M unit :=
  let doc := beforePublish engine (removedAt doc atIndex) in
  let doc := addCustomFields doc
    [("searchDefinition", of_ostring definitionString);
     ("searchOptions", of_ostring optionsString)] in
  log (removed collectionName (generateId doc)).

Definition on_event (definitionString optionsString : option string)
    (collection : gmap string Doc) (ev : DiffEvent) : M unit :=
  match ev with
  | addedAt doc atIndex before =>
      on_addedAt definitionString optionsString doc atIndex before
  | changedAt doc oldDoc atIndex =>
      on_changedAt definitionString optionsString doc oldDoc atIndex
  | movedTo doc fromIndex toIndex before =>
      on_movedTo definitionString optionsString collection doc fromIndex toIndex before
  | removedAt doc atIndex =>
      on_removedAt definitionString optionsString doc atIndex
  end.

(** What `observe` does before it returns: `addedAt(doc, i, null)` for the
    documents the cursor holds, in order, counting from `atIndex`. *)
Fixpoint initial_adds (definitionString optionsString : option string)
    (docs : list Doc) (atIndex : Z) : M unit :=
  match docs with
  | [] => skip
  | doc :: rest =>
      on_addedAt definitionString optionsString doc atIndex JNull;;
      initial_adds definitionString optionsString rest (atIndex + 1)
  end.

(** `cursor.mongoCursor.observe({...})`. *)
Definition mongoCursor_observe (definitionString optionsString : option string)
    (cursor : Cursor) : M ObserveHandle :=
  log observe;;
  initial_adds definitionString optionsString (mongoCursor_docs cursor) 0;;
  mret {| obs_definitionString := definitionString;
          obs_optionsString := optionsString; obs_stops := 0 |}.

(** `check(searchDefinition, Match.OneOf(String, Object))`. *)
Definition is_String_or_Object (v : JSValue) : bool :=
  match v with JStr _ | JObj _ => true | _ => false end.

(** The handler given to Meteor.publish, lines 170-296.  `options` is an
    object (the second `check`); `options.publicationScope` is the context
    itself and is not a property the model can hold. *)
Definition publish (searchDefinition : JSValue) (options : Doc) : M unit :=
  (if is_String_or_Object searchDefinition then skip else throw Match_Error);;
  let definitionString := stringify searchDefinition in
  let optionsString := stringify (prop options "props") in
  this ← get;
  let options := <["userId" := userId this]> options in
  log (permission_call options);;
  (if permission config options then skip else throw not_allowed);;
  log (checkSearchParam_call searchDefinition);;
  (if checkSearchParam engine searchDefinition config then skip else throw engine_error);;
  log (search_call searchDefinition options);;
  let cursor := search engine searchDefinition options config in
  let count := JNum (cursor_count cursor) in
  log (added collectionName
         (js_plus (JStr "searchCount") (of_ostring definitionString))
         {[ "count" := count ]});;
  (if truthy (countUpdateIntervalMs config)
   then h ← Meteor_setInterval (CountTick definitionString)
              (countUpdateIntervalMs config);
        set_intervalID (Some h)
   else skip);;
  let aggs := _aggs cursor in
  (if truthy aggs
   then log (added collectionName
               (js_plus (JStr "aggs") (of_ostring definitionString))
               {[ "aggs" := aggs ]})
   else skip);;
  (if truthy aggs && truthy (aggsUpdateIntervalMs config)
   then h ← Meteor_setInterval (AggsTick definitionString aggs)
              (aggsUpdateIntervalMs config);
        set_intervalID (Some h)
   else skip);;
  onStop StopFirst;;
  h ← mongoCursor_observe definitionString optionsString cursor;
  set_resultsHandle (Some h);;
  onStop StopSecond;;
  log ready.

(** What happens to a subscription after the handler returned. *)
Inductive Input : Type :=
| Tick (handle : nat) (cursor : Cursor)
| Diff (ev : DiffEvent) (collection : gmap string Doc)
| Stop.

(** An interval fires only while Meteor holds it; the observer delivers an
    event only while no `stop()` reached its handle. *)
Definition step (i : Input) : M unit :=
  s ← get;
  match i with
  | Tick h cursor =>
      match intervals s !! h with
      | Some cb => run_timer cb cursor
      | None => skip
      end
  | Diff ev collection =>
      match resultsHandle s with
      | Some h =>
          if Nat.eqb (obs_stops h) 0
          then on_event (obs_definitionString h) (obs_optionsString h) collection ev
          else skip
      | None => skip
      end
  | Stop => stop
  end.

Fixpoint run (inputs : list Input) : M unit :=
  match inputs with
  | [] => skip
  | i :: rest => step i;; run rest
  end.

End Publication.

(** The messages of the channel among the calls: added, changed, removed
    and ready, as the handler and its callbacks call them on the
    publication context. *)
Definition is_message (c : Call) : bool :=
  match c with
  | added _ _ _ | changed _ _ _ | removed _ _ | ready => true
  | _ => false
  end.

Definition messages (s : Session) : list Call := filter is_message (calls s).

Definition is_engine_call (c : Call) : bool :=
  match c with
  | checkSearchParam_call _ | search_call _ _ | observe => true
  | _ => false
  end.

(* ===================================================================== *)
(* The client side                                                         *)
(* ===================================================================== *)


(** Minimongo's equality match of a scalar property against a string, or
    against `undefined`, which it treats as null: absent, undefined and
    null match. *)
Definition field_equals (doc : Doc) (key : string) (v : option string) : bool :=
  match v, doc !! key with
  | Some s, Some (JStr s') => String.eqb s s'
  | Some _, _ => false
  | None, (None | Some JUndefined | Some JNull) => true
  | None, _ => false
  end.







Section Client.

Variable self : SearchCollection.

(** The local collection `this._collection`, its documents by id. *)
Variable _collection : gmap string Doc.

(** The ids of the local collection in the order in which its documents
    were inserted: the order in which Minimongo visits them. *)
Variable _inserted : list string.


(** _getCount, lines 100-106. *)
Definition _getCount (searchDefinition : JSValue) : JSValue :=
  match findOne _collection
          (js_plus (JStr "searchCount") (of_ostring (stringify searchDefinition))) with
  | Some countDoc => prop countDoc "count"
  | None => JUndefined
  end.

(** The selector of _getMongoCursor, line 119. *)
Definition selected (searchDefinition : JSValue) (options : Doc) (doc : Doc) : bool :=
  field_equals doc "__searchDefinition" (stringify searchDefinition)
  && field_equals doc "__searchOptions" (stringify (prop options "props")).

(** The transform of _getMongoCursor, lines 121-129. *)
Definition cursor_transform (doc : Doc) : Doc :=
  let doc := delete "__searchDefinition" doc in
  let doc := delete "__searchOptions" doc in
  let doc := delete "__sortPosition" doc in
  transform (_engine self) doc.




End Client.

(* ===================================================================== *)
(* Expected calls, stated apart from the handler                           *)
(* ===================================================================== *)

(** The document an `addedAt` or `changedAt` event publishes: the hook's
    result with the four stamps. *)
Definition stamped (self : SearchCollection) (definitionString optionsString : option string)
    (ev : DiffEvent) (atIndex : Z) : Doc :=
  let doc := beforePublish (_engine self) ev in
  <["__originalId" := prop doc "_id"]>
    (<["__sortPosition" := JNum atIndex]>
       (<["__searchOptions" := of_ostring optionsString]>
          (<["__searchDefinition" := of_ostring definitionString]> doc))).

(** The document a `movedTo` event publishes, for the moved document and
    for the document found under `before`: three stamps. *)
Definition restamped (definitionString optionsString : option string)
    (doc : Doc) (position : Z) : Doc :=
  <["__sortPosition" := JNum position]>
    (<["__searchOptions" := of_ostring optionsString]>
       (<["__searchDefinition" := of_ostring definitionString]> doc)).

(** The `added` call for the document at index `atIndex` of the initial
    result. *)
Definition initial_message (self : SearchCollection)
    (definitionString optionsString : option string) (atIndex : Z) (doc : Doc) : Call :=
  let d := stamped self definitionString optionsString (addedAt doc atIndex JNull) atIndex in
  added (_name self) (generateId d) d.

(** The `added` calls of the initial result, in order. *)
Fixpoint initial_messages (self : SearchCollection)
    (definitionString optionsString : option string)
    (docs : list Doc) (atIndex : Z) : list Call :=
  match docs with
  | [] => []
  | doc :: rest =>
      initial_message self definitionString optionsString atIndex doc
        :: initial_messages self definitionString optionsString rest (atIndex + 1)
  end.

(** The keys of the two synthetic records. *)
Definition count_key (definitionString : option string) : JSValue :=
  js_plus (JStr "searchCount") (of_ostring definitionString).

Definition aggs_key (definitionString : option string) : JSValue :=
  js_plus (JStr "aggs") (of_ostring definitionString).

(** The session the handler leaves behind when nothing throws. *)
Definition published (self : SearchCollection) (searchDefinition : JSValue)
    (options : Doc) (uid : JSValue) : Session :=
  let config := _indexConfiguration self in
  let options' : Doc := <["userId" := uid]> options in
  let cursor := search (_engine self) searchDefinition options' config in
  let definitionString := stringify searchDefinition in
  let optionsString := stringify (prop options "props") in
  let count_on := truthy (countUpdateIntervalMs config) in
  let aggs_on := truthy (_aggs cursor) && truthy (aggsUpdateIntervalMs config) in
  let aggs_handle : nat := if count_on then 2%nat else 1%nat in
  {| calls :=
       [permission_call options'; checkSearchParam_call searchDefinition;
        search_call searchDefinition options';
        added (_name self) (count_key definitionString)
          {[ "count" := JNum (cursor_count cursor) ]}]
       ++ (if count_on
           then [setInterval (CountTick definitionString) (countUpdateIntervalMs config) 1%nat]
           else [])
       ++ (if truthy (_aggs cursor)
           then [added (_name self) (aggs_key definitionString) {[ "aggs" := _aggs cursor ]}]
           else [])
       ++ (if aggs_on
           then [setInterval (AggsTick definitionString (_aggs cursor))
                   (aggsUpdateIntervalMs config) aggs_handle]
           else [])
       ++ [observe]
       ++ initial_messages self definitionString optionsString (mongoCursor_docs cursor) 0
       ++ [ready];
     userId := uid;
     this_mongoCount := JUndefined;
     deactivated := false;
     stopCallbacks := [StopFirst; StopSecond];
     intervals :=
       (if aggs_on
        then <[aggs_handle := AggsTick definitionString (_aggs cursor)]>
        else fun m => m)
         (if count_on then {[ 1%nat := CountTick definitionString ]} else ∅);
     nextHandle := ((if count_on then 1 else 0) + (if aggs_on then 1 else 0) + 1)%nat;
     intervalID :=
       if aggs_on then Some aggs_handle
       else if count_on then Some 1%nat else None;
     intervalAggsID := None;
     resultsHandle :=
       Some {| obs_definitionString := definitionString;
               obs_optionsString := optionsString; obs_stops := 0 |} |}.

(** The call a firing interval makes. *)
Definition tick_calls (self : SearchCollection) (s : Session) (h : nat)
    (cursor : Cursor) : list Call :=
  match intervals s !! h with
  | Some (CountTick dS) =>
      [changed (_name self) (count_key dS)
         {[ "count" :=
              if truthy (this_mongoCount s)
              then JNum (mongoCursor_count cursor)
              else js_or (JNum (cursor_count cursor)) (JNum 0) ]}]
  | Some (AggsTick dS aggs) =>
      [changed (_name self) (aggs_key dS) {[ "aggs" := aggs ]}]
  | None => []
  end.

(** The calls an observe callback makes. *)
Definition event_calls (self : SearchCollection) (dS oS : option string)
    (collection : gmap string Doc) (ev : DiffEvent) : list Call :=
  match ev with
  | addedAt doc atIndex before =>
      let d := stamped self dS oS ev atIndex in
      [added (_name self) (generateId d) d]
  | changedAt doc oldDoc atIndex =>
      let d := stamped self dS oS ev atIndex in
      [changed (_name self) (generateId d) d]
  | movedTo doc fromIndex toIndex before =>
      let d := restamped dS oS (beforePublish (_engine self) ev) toIndex in
      match findOne collection before with
      | Some beforeDoc =>
          let b := restamped dS oS beforeDoc fromIndex in
          [changed (_name self) (generateId b) b]
      | None => []
      end ++ [changed (_name self) (generateId d) d]
  | removedAt doc atIndex =>
      let d := <["__searchOptions" := of_ostring oS]>
                 (<["__searchDefinition" := of_ostring dS]>
                    (beforePublish (_engine self) ev)) in
      [removed (_name self) (generateId d)]
  end.

(** The calls a diff event makes on a session: none once `stop()` reached
    the observe handle. *)
Definition diff_calls (self : SearchCollection) (s : Session)
    (collection : gmap string Doc) (ev : DiffEvent) : list Call :=
  match resultsHandle s with
  | Some h =>
      if Nat.eqb (obs_stops h) 0
      then event_calls self (obs_definitionString h) (obs_optionsString h) collection ev
      else []
  | None => []
  end.

Definition is_stop (i : Input) : bool :=
  match i with Stop => true | _ => false end.

(** Calls other than added, changed and removed. *)
Definition is_control (c : Call) : bool :=
  match c with
  | added _ _ _ | changed _ _ _ | removed _ _ => false
  | _ => true
  end.

Definition is_handle_stop (c : Call) : bool :=
  match c with handle_stop => true | _ => false end.

Definition is_clearInterval (c : Call) : bool :=
  match c with clearInterval _ => true | _ => false end.

(** The id of the first message of a session. *)
Definition first_message_id (s : Session) : option JSValue :=
  match messages s with
  | added _ id _ :: _ | changed _ id _ :: _ | removed _ id :: _ => Some id
  | _ => None
  end.

(** A session whose handler returned and which was not stopped: both stop
    callbacks are registered, the observe handle is set and live, and
    `intervalAggsID` holds nothing. *)
Definition streaming (s : Session) : Prop :=
  deactivated s = false
  /\ stopCallbacks s = [StopFirst; StopSecond]
  /\ intervalAggsID s = None
  /\ exists h, resultsHandle s = Some h /\ obs_stops h = 0%nat.

(** The calls of the two stop callbacks on a streaming session. *)
Definition stop_calls (s : Session) : list Call :=
  match intervalID s with Some h => [clearInterval h] | None => [] end
  ++ [handle_stop; handle_stop].

(** A streaming session after its stop. *)
Definition stopped (s : Session) : Session :=
  {| calls := calls s ++ stop_calls s;
     userId := userId s;
     this_mongoCount := this_mongoCount s;
     deactivated := true;
     stopCallbacks := [];
     intervals :=
       match intervalID s with
       | Some h => delete h (intervals s)
       | None => intervals s
       end;
     nextHandle := nextHandle s;
     intervalID := intervalID s;
     intervalAggsID := intervalAggsID s;
     resultsHandle :=
       match resultsHandle s with
       | Some h => Some {| obs_definitionString := obs_definitionString h;
                           obs_optionsString := obs_optionsString h;
                           obs_stops := S (S (obs_stops h)) |}
       | None => None
       end |}.

(** A computation that leaves `this.mongoCount` as it found it. *)
Definition keeps {A} (m : M A) : Prop :=
  forall s, this_mongoCount (snd (m s)) = this_mongoCount s.

(* ===================================================================== *)
(* A concrete index                                                        *)
(* ===================================================================== *)

Module Scenario.

(** A hook that publishes the document as it is. *)
Definition hook (ev : DiffEvent) : Doc :=
  match ev with
  | addedAt doc _ _ | changedAt doc _ _ | movedTo doc _ _ _ | removedAt doc _ => doc
  end.

Definition docA : Doc := {[ "_id" := JStr "A"; "score" := JNum 9 ]}.
Definition docB : Doc := {[ "_id" := JStr "B"; "score" := JNum 7 ]}.
Definition docC : Doc := {[ "_id" := JStr "C"; "score" := JNum 5 ]}.

Definition store : gmap string Doc :=
  {[ "A" := docA; "B" := docB; "C" := docC ]}.

Definition facets0 : JSValue := JObj [("genre", JNum 3)].
Definition facets1 : JSValue := JObj [("genre", JNum 4)].

(** The cursor at subscribe time, and the same cursor later. *)
Definition cursor0 : Cursor :=
  {| cursor_count := 3; mongoCursor_count := 7; _aggs := facets0;
     mongoCursor_docs := [docA; docB; docC] |}.

Definition cursor1 : Cursor :=
  {| cursor_count := 4; mongoCursor_count := 8; _aggs := facets1;
     mongoCursor_docs := [docA; docB; docC] |}.

Definition engine0 : ReactiveEngine :=
  {| indexName := None;
     checkSearchParam := fun _ _ => true;
     search := fun _ _ _ => cursor0;
     beforePublish := hook;
     transform := fun doc => doc |}.

Definition index (allow : bool) (countMs aggsMs : JSValue) (mongo : bool)
  : SearchCollection :=
  {| _indexConfiguration :=
       {| name := Some "players"; permission := fun _ => allow;
          countUpdateIntervalMs := countMs; aggsUpdateIntervalMs := aggsMs |};
     _engine := engine0;
     mongoCount := mongo |}.

(** Both refresh intervals configured. *)
Definition both : SearchCollection := index true (JNum 1000) (JNum 5000) true.

(** No refresh interval. *)
Definition plain : SearchCollection := index true JUndefined JUndefined true.

(** The session after `subscribe("cat", options)` by user u1. *)
Definition subscribed (self : SearchCollection) (options : Doc) : Session :=
  snd (publish self (JStr "cat") options (new_session (JStr "u1"))).

(** The session after the inputs that follow. *)
Definition after (self : SearchCollection) (inputs : list Input) : Session :=
  snd (run self inputs (subscribed self ∅)).





End Scenario.

(* ===================================================================== *)
(* Reading the calls                                                       *)
(* ===================================================================== *)

(** The id an added, changed or removed call addresses. *)
Definition call_id (c : Call) : option JSValue :=
  match c with
  | added _ id _ | changed _ id _ | removed _ id => Some id
  | _ => None
  end.

(** A call that, when it is a message about a record, names the
    collection `n`. *)
Definition addressed_to (n : string) (c : Call) : Prop :=
  match c with
  | added m _ _ | changed m _ _ | removed m _ => m = n
  | _ => True
  end.

Definition is_ready (c : Call) : bool :=
  match c with ready => true | _ => false end.

(** A computation that only appends calls, each of them satisfying `P`. *)
Definition appends (P : Call -> Prop) {A} (m : M A) : Prop :=
  forall s, exists cs, calls (snd (m s)) = (calls s ++ cs)%list /\ Forall P cs.

(** Equality of values is decidable. *)
Fixpoint JSValue_eq_dec (a b : JSValue) {struct a} : {a = b} + {a <> b}.
Proof.
  decide equality.
  - apply bool_dec.
  - apply Z.eq_dec.
  - apply string_dec.
  - apply (List.list_eq_dec JSValue_eq_dec).
  - apply List.list_eq_dec. intros [k1 v1] [k2 v2].
    destruct (string_dec k1 k2) as [->|Hk]; [|right; congruence].
    destruct (JSValue_eq_dec v1 v2) as [->|Hv]; [left; reflexivity|right; congruence].
Defined.

#[export] Instance JSValue_eq : EqDecision JSValue := JSValue_eq_dec.

(** Stated apart from the code: the document carries the fingerprint `o`
    under `key`.  An `undefined` fingerprint is carried by a document that
    has nothing, undefined or null there. *)
Definition carries (doc : Doc) (key : string) (o : option string) : Prop :=
  match o with
  | Some s => doc !! key = Some (JStr s)
  | None => doc !! key = None \/ doc !! key = Some JUndefined \/ doc !! key = Some JNull
  end.

#[export] Instance carries_dec doc key o : Decision (carries doc key o).
Proof. destruct o; unfold carries; apply _. Defined.

(** The two calls the handler makes before it calls `engine.search`. *)
Definition is_precheck (c : Call) : bool :=
  match c with
  | permission_call _ | checkSearchParam_call _ => true
  | _ => false
  end.

(** The key under which a subscription publishes the document whose id is
    `id`. *)
Definition key_of (dS oS : option string) (id : JSValue) : JSValue :=
  js_plus (js_plus id (of_ostring dS)) (of_ostring oS).

(* ===================================================================== *)
(* Basic facts                                                             *)
(* ===================================================================== *)

Example stringify_string : stringify (JStr "cat") = Some (dquote ++ "cat" ++ dquote).
Proof. reflexivity. Qed.

Example stringify_object :
  stringify (JObj [("a", JNum 1); ("u", JUndefined); ("b", JArr [JUndefined; JBool true])])
  = Some ("{" ++ quote "a" ++ ":1," ++ quote "b" ++ ":[null,true]}").
Proof. vm_compute. reflexivity. Qed.

Example plus_undefined : js_plus (JStr "searchCount") JUndefined = JStr "searchCountundefined".
Proof. reflexivity. Qed.

(** Runs the primitives of the monad on an explicit session. *)
Ltac run_m :=
  repeat (progress (
    unfold publish, mongoCursor_observe, step, stop, run_stops, run_stop, onStop,
      resultsHandle_stop, Meteor_setInterval, Meteor_clearInterval,
      set_intervalID, set_resultsHandle, log, modify, get, skip, throw,
      mbind, M_bind, mret, M_ret;
    cbn -[initial_adds initial_messages js_plus stringify])).

Lemma emit_nil s : emit [] s = s.
Proof. destruct s. unfold emit. simpl. by rewrite app_nil_r. Qed.

Lemma emit_emit cs1 cs2 s : emit cs2 (emit cs1 s) = emit (cs1 ++ cs2) s.
Proof. unfold emit. simpl. by rewrite app_assoc. Qed.

Lemma messages_emit cs s :
  messages (emit cs s) = (messages s ++ filter is_message cs)%list.
Proof. unfold messages. simpl. apply filter_app. Qed.

Lemma js_or_zero n : js_or (JNum n) (JNum 0) = JNum n.
Proof.
  unfold js_or. simpl. destruct (Z.eqb_spec n 0) as [->|]; reflexivity.
Qed.

Lemma initial_adds_emit self dS oS docs i s :
  initial_adds self dS oS docs i s
  = (Ok tt, emit (initial_messages self dS oS docs i) s).
Proof.
  revert i s. induction docs as [|doc rest IH]; intros i s.
  - simpl. by rewrite emit_nil.
  - simpl. unfold mbind, M_bind. simpl. rewrite IH. rewrite emit_emit. reflexivity.
Qed.

(** The i-th document of the result is published with position i. *)
Lemma initial_messages_imap self dS oS docs k :
  initial_messages self dS oS docs k
  = imap (fun i doc => initial_message self dS oS (k + Z.of_nat i) doc) docs.
Proof.
  revert k. induction docs as [|doc rest IH]; intros k; [reflexivity|].
  cbn [initial_messages imap]. f_equal.
  - by rewrite Z.add_0_r.
  - rewrite IH. apply imap_ext. intros i x _. simpl. f_equal. lia.
Qed.

Lemma initial_messages_are_messages self dS oS docs k :
  filter is_message (initial_messages self dS oS docs k)
  = initial_messages self dS oS docs k.
Proof.
  revert k. induction docs as [|doc rest IH]; intros k; [reflexivity|].
  cbn [initial_messages]. unfold initial_message at 1.
  rewrite filter_cons_True by reflexivity. by rewrite IH.
Qed.

(* ===================================================================== *)
(* A subscription whose handler returns                                    *)
(* ===================================================================== *)

Section Subscribed.

Variable self : SearchCollection.
Variables (searchDefinition : JSValue) (options : Doc) (uid : JSValue).

Hypothesis check_ok : is_String_or_Object searchDefinition = true.
Hypothesis permitted :
  permission (_indexConfiguration self) (<["userId" := uid]> options) = true.
Hypothesis param_ok :
  checkSearchParam (_engine self) searchDefinition (_indexConfiguration self) = true.

Lemma publish_ok :
  publish self searchDefinition options (new_session uid)
  = (Ok tt, published self searchDefinition options uid).
Proof using check_ok permitted param_ok.
  unfold publish, published, mbind, M_bind.
  rewrite check_ok. cbn [skip mret M_ret get new_session userId].
  rewrite permitted, param_ok.
  unfold count_key, aggs_key.
  destruct (truthy (countUpdateIntervalMs (_indexConfiguration self))),
           (truthy (_aggs (search (_engine self) searchDefinition
                      (<["userId" := uid]> options) (_indexConfiguration self)))),
           (truthy (aggsUpdateIntervalMs (_indexConfiguration self)));
    run_m; rewrite initial_adds_emit; run_m;
    rewrite ?insert_empty; reflexivity.
Qed.

End Subscribed.

(* ===================================================================== *)
(* Ticks and diff events only add calls                                    *)
(* ===================================================================== *)

Section Steps.

Variable self : SearchCollection.

Lemma on_event_emit dS oS collection ev s :
  on_event self dS oS collection ev s
  = (Ok tt, emit (event_calls self dS oS collection ev) s).
Proof.
  destruct ev as [doc i b|doc old i|doc f t b|doc i]; simpl.
  - reflexivity.
  - reflexivity.
  - unfold on_movedTo. destruct (findOne collection b) as [bd|]; run_m.
    + rewrite ?emit_emit. reflexivity.
    + rewrite ?emit_nil. reflexivity.
  - reflexivity.
Qed.

Lemma step_tick h cursor s :
  step self (Tick h cursor) s = (Ok tt, emit (tick_calls self s h cursor) s).
Proof.
  unfold step, tick_calls. run_m.
  destruct (intervals s !! h) as [[dS|dS aggs]|]; simpl.
  - reflexivity.
  - reflexivity.
  - by rewrite emit_nil.
Qed.

Lemma step_diff ev collection s :
  step self (Diff ev collection) s
  = (Ok tt, emit (diff_calls self s collection ev) s).
Proof.
  unfold step, diff_calls. run_m.
  destruct (resultsHandle s) as [h|]; [|by rewrite emit_nil].
  destruct (Nat.eqb (obs_stops h) 0); [|by rewrite emit_nil].
  apply on_event_emit.
Qed.

Lemma tick_calls_messages s h cursor :
  filter is_control (tick_calls self s h cursor) = [].
Proof.
  unfold tick_calls. destruct (intervals s !! h) as [[?|? ?]|]; reflexivity.
Qed.

Lemma event_calls_messages dS oS collection ev :
  filter is_control (event_calls self dS oS collection ev) = [].
Proof.
  destruct ev as [doc i b|doc old i|doc f t b|doc i]; simpl; try reflexivity.
  destruct (findOne collection b); reflexivity.
Qed.

Lemma diff_calls_messages s collection ev :
  filter is_control (diff_calls self s collection ev) = [].
Proof.
  unfold diff_calls. destruct (resultsHandle s) as [h|]; [|reflexivity].
  destruct (Nat.eqb (obs_stops h) 0); [|reflexivity].
  apply event_calls_messages.
Qed.

(** While no stop arrives the session only gains added, changed and
    removed calls: timers, stop callbacks, the observe handle and the
    properties of the context stay as the handler left them. *)
Lemma run_streaming inputs s :
  forallb (fun i => negb (is_stop i)) inputs = true ->
  exists cs, run self inputs s = (Ok tt, emit cs s)
             /\ filter is_control cs = [].
Proof.
  revert s. induction inputs as [|i rest IH]; intros s Hq.
  - exists []. split; [|reflexivity]. simpl. by rewrite emit_nil.
  - simpl in Hq. apply andb_true_iff in Hq as [Hi Hrest].
    destruct i as [h cursor|ev collection|]; [| |discriminate Hi].
    + destruct (IH (emit (tick_calls self s h cursor) s) Hrest) as (cs & Hrun & Hcs).
      exists (tick_calls self s h cursor ++ cs)%list. split.
      * cbn [run]. unfold mbind, M_bind. rewrite step_tick, Hrun.
        by rewrite emit_emit.
      * rewrite filter_app, tick_calls_messages, Hcs. reflexivity.
    + destruct (IH (emit (diff_calls self s collection ev) s) Hrest) as (cs & Hrun & Hcs).
      exists (diff_calls self s collection ev ++ cs)%list. split.
      * cbn [run]. unfold mbind, M_bind. rewrite step_diff, Hrun.
        by rewrite emit_emit.
      * rewrite filter_app, diff_calls_messages, Hcs. reflexivity.
Qed.

Lemma run_app i1 i2 s :
  run self (i1 ++ i2) s
  = match run self i1 s with
    | (Ok _, s') => run self i2 s'
    | (Throw e, s') => (Throw e, s')
    end.
Proof.
  revert s. induction i1 as [|i rest IH]; intros s; [reflexivity|].
  cbn [run app]. unfold mbind, M_bind.
  destruct (step self i s) as [[[]|e] s']; [apply IH|reflexivity].
Qed.

End Steps.

(* ===================================================================== *)
(* Teardown                                                                *)
(* ===================================================================== *)

Section Teardown.

Variable self : SearchCollection.

Lemma published_streaming searchDefinition options uid :
  streaming (published self searchDefinition options uid).
Proof. unfold streaming, published. simpl. eauto 10. Qed.

Lemma emit_streaming cs s : streaming s -> streaming (emit cs s).
Proof. unfold streaming. simpl. tauto. Qed.

Lemma stop_streaming s : streaming s -> stop s = (Ok tt, stopped s).
Proof.
  destruct s as [cs u mc d cbs ivs nh iid iaid rh].
  intros (Hd & Hcbs & Haggs & h & Hrh & Hstops). simpl in *. subst.
  unfold stopped, stop_calls. destruct iid as [i|]; run_m;
    unfold emit; cbn; rewrite <- ?app_assoc; reflexivity.
Qed.

(** A second stop does nothing. *)
Lemma stop_deactivated s : deactivated s = true -> stop s = (Ok tt, s).
Proof. intros H. unfold stop. run_m. rewrite H. reflexivity. Qed.

Lemma step_stop s : step self Stop s = stop s.
Proof. unfold step, mbind, M_bind, get. reflexivity. Qed.

(** After its stop a streaming session receives no diff event. *)
Lemma diff_after_stop s collection ev :
  streaming s -> diff_calls self (stopped s) collection ev = [].
Proof.
  intros (_ & _ & _ & h & Hrh & _). unfold diff_calls, stopped. simpl.
  rewrite Hrh. reflexivity.
Qed.

Lemma filter_handle_stop_control cs :
  filter is_control cs = [] -> filter is_handle_stop cs = [].
Proof.
  induction cs as [|c cs IH]; [reflexivity|].
  rewrite !filter_cons. destruct c; simpl; try discriminate; exact IH.
Qed.

Lemma filter_clearInterval_control cs :
  filter is_control cs = [] -> filter is_clearInterval cs = [].
Proof.
  induction cs as [|c cs IH]; [reflexivity|].
  rewrite !filter_cons. destruct c; simpl; try discriminate; exact IH.
Qed.

Lemma initial_messages_control dS oS docs k :
  filter is_control (initial_messages self dS oS docs k) = [].
Proof.
  revert k. induction docs as [|doc rest IH]; intros k; [reflexivity|].
  cbn [initial_messages]. unfold initial_message at 1.
  rewrite filter_cons_False by (simpl; tauto). apply IH.
Qed.

Lemma published_no_handle_stop searchDefinition options uid :
  filter is_handle_stop (calls (published self searchDefinition options uid)) = [].
Proof.
  unfold published. cbn [calls].
  rewrite !filter_app, (filter_handle_stop_control (initial_messages _ _ _ _ _))
    by apply initial_messages_control.
  repeat match goal with |- context [if ?b then _ else _] => destruct b end;
    reflexivity.
Qed.

(** Once a stop left no interval behind, nothing makes a call any more:
    no tick, no diff event, no second stop. *)
Lemma run_after_clean_stop s inputs :
  streaming s -> intervals (stopped s) = ∅ ->
  run self inputs (stopped s) = (Ok tt, stopped s).
Proof.
  intros Hs Hi. induction inputs as [|i rest IH]; [reflexivity|].
  cbn [run]. unfold mbind, M_bind.
  destruct i as [h cursor|ev collection|].
  - rewrite step_tick. unfold tick_calls. rewrite Hi, lookup_empty, emit_nil.
    exact IH.
  - rewrite step_diff, (diff_after_stop _ _ _ Hs), emit_nil. exact IH.
  - rewrite step_stop, stop_deactivated by reflexivity. exact IH.
Qed.

(** The intervals Meteor still holds after the stop: the count interval,
    when both were started. *)
Lemma intervals_after_stop searchDefinition options uid cs :
  let config := _indexConfiguration self in
  let cursor := search (_engine self) searchDefinition
                  (<["userId" := uid]> options) config in
  intervals (stopped (emit cs (published self searchDefinition options uid)))
  = if truthy (countUpdateIntervalMs config)
       && (truthy (_aggs cursor) && truthy (aggsUpdateIntervalMs config))
    then {[ 1%nat := CountTick (stringify searchDefinition) ]}
    else ∅.
Proof.
  cbn zeta. unfold stopped, published. cbn [intervals intervalID emit].
  destruct (truthy (countUpdateIntervalMs (_indexConfiguration self)));
    destruct (truthy (_aggs _) && truthy (aggsUpdateIntervalMs _)); cbn [andb].
  - rewrite delete_insert_eq. apply delete_id. reflexivity.
  - apply delete_singleton_eq.
  - rewrite delete_insert_eq. apply delete_empty.
  - reflexivity.
Qed.

End Teardown.

(* ===================================================================== *)
(* The property `mongoCount` of the publication context                    *)
(* ===================================================================== *)

Create HintDb keeps.

Lemma keeps_ret {A} (a : A) : keeps (mret a).
Proof. intros s. reflexivity. Qed.

Lemma keeps_throw {A} e : keeps (@throw A e).
Proof. intros s. reflexivity. Qed.

Lemma keeps_get : keeps get.
Proof. intros s. reflexivity. Qed.

Lemma keeps_bind {A B} (m : M A) (f : A -> M B) :
  keeps m -> (forall a, keeps (f a)) -> keeps (m ≫= f).
Proof.
  intros Hm Hf s. unfold mbind, M_bind. specialize (Hm s).
  destruct (m s) as [[a|e] s']; simpl in *; [|exact Hm].
  rewrite Hf. exact Hm.
Qed.

Lemma keeps_modify f :
  (forall s, this_mongoCount (f s) = this_mongoCount s) -> keeps (modify f).
Proof. intros H s. apply H. Qed.

Lemma keeps_if {A} (b : bool) (m1 m2 : M A) :
  keeps m1 -> keeps m2 -> keeps (if b then m1 else m2).
Proof. destruct b; auto. Qed.

Lemma keeps_option {A B} (o : option A) (f : A -> M B) (m : M B) :
  (forall a, keeps (f a)) -> keeps m ->
  keeps (match o with Some a => f a | None => m end).
Proof. destruct o; auto. Qed.

#[local] Hint Resolve keeps_ret keeps_throw keeps_get keeps_if keeps_option : keeps.
#[local] Hint Extern 1 (keeps (_ ≫= _)) => apply keeps_bind; [|intros ?] : keeps.
#[local] Hint Extern 1 (keeps (modify _)) =>
  apply keeps_modify; intros ?; reflexivity : keeps.
#[local] Hint Extern 1 (keeps skip) => apply keeps_ret : keeps.

Lemma keeps_log c : keeps (log c).
Proof. unfold log. auto with keeps. Qed.
#[local] Hint Resolve keeps_log : keeps.

Lemma keeps_setInterval cb ms : keeps (Meteor_setInterval cb ms).
Proof. unfold Meteor_setInterval. auto 10 with keeps. Qed.

Lemma keeps_clearInterval h : keeps (Meteor_clearInterval h).
Proof. unfold Meteor_clearInterval. auto 10 with keeps. Qed.

Lemma keeps_set_intervalID v : keeps (set_intervalID v).
Proof. unfold set_intervalID. auto with keeps. Qed.

Lemma keeps_set_resultsHandle v : keeps (set_resultsHandle v).
Proof. unfold set_resultsHandle. auto with keeps. Qed.
#[local] Hint Resolve keeps_setInterval keeps_clearInterval keeps_set_intervalID
  keeps_set_resultsHandle : keeps.

Lemma keeps_resultsHandle_stop h : keeps (resultsHandle_stop h).
Proof. unfold resultsHandle_stop. auto with keeps. Qed.
#[local] Hint Resolve keeps_resultsHandle_stop : keeps.

Lemma keeps_run_stop cb : keeps (run_stop cb).
Proof. destruct cb; unfold run_stop; auto 20 with keeps. Qed.
#[local] Hint Resolve keeps_run_stop : keeps.

Lemma keeps_onStop cb : keeps (onStop cb).
Proof. unfold onStop. auto 10 with keeps. Qed.

Lemma keeps_run_stops cbs : keeps (run_stops cbs).
Proof. induction cbs; simpl; auto with keeps. Qed.
#[local] Hint Resolve keeps_onStop keeps_run_stops : keeps.

Lemma keeps_stop : keeps stop.
Proof. unfold stop. auto 10 with keeps. Qed.
#[local] Hint Resolve keeps_stop : keeps.

Section Keeps.

Variable self : SearchCollection.

Lemma keeps_initial_adds dS oS docs i : keeps (initial_adds self dS oS docs i).
Proof. intros s. rewrite initial_adds_emit. reflexivity. Qed.

Lemma keeps_publish searchDefinition options :
  keeps (publish self searchDefinition options).
Proof.
  pose proof keeps_initial_adds.
  unfold publish, mongoCursor_observe. auto 30 with keeps.
Qed.

Lemma keeps_step i : keeps (step self i).
Proof.
  intros s. destruct i as [h cursor|ev collection|].
  - rewrite step_tick. reflexivity.
  - rewrite step_diff. reflexivity.
  - rewrite step_stop. apply keeps_stop.
Qed.

Lemma keeps_run inputs : keeps (run self inputs).
Proof.
  induction inputs as [|i rest IH]; [apply keeps_ret|].
  simpl. apply keeps_bind; [apply keeps_step|intros _; exact IH].
Qed.

(** No session that starts from a fresh context ever has the property. *)
Lemma this_mongoCount_undefined searchDefinition options uid inputs :
  this_mongoCount
    (snd (run self inputs
            (snd (publish self searchDefinition options (new_session uid)))))
  = JUndefined.
Proof. rewrite keeps_run, keeps_publish. reflexivity. Qed.

End Keeps.

(* ===================================================================== *)
(* Teardown of the timers and of the observer                              *)
(* ===================================================================== *)

(** C1 (the code departs from the claim).  With both refresh intervals
    configured and aggregations present, the handle of the aggregation
    interval is written to `intervalID` over the handle of the count
    interval, and `intervalAggsID` is never assigned.  After the stop the
    subscription is deactivated, the only `clearInterval` was for handle 2
    (the aggregation interval), Meteor still holds the count interval
    under handle 1, and its next tick still calls `this.changed` for the
    count record. *)
Theorem count_interval_survives_stop :
  let s := Scenario.after Scenario.both [Stop] in
  deactivated s = true
  /\ filter is_clearInterval (calls s) = [clearInterval 2%nat]
  /\ intervals s !! 1%nat = Some (CountTick (Some (quote "cat")))
  /\ intervals s !! 2%nat = None
  /\ calls (snd (step Scenario.both (Tick 1%nat Scenario.cursor1) s))
     = (calls s ++ [changed "players/easySearch"
                     (JStr ("searchCount" ++ quote "cat"))
                     {[ "count" := JNum 4 ]}])%list.
Proof. vm_compute. repeat split; reflexivity. Qed.

(** C8, the claim as stated fails: on a subscription without timers the
    stop calls `stop()` on the observe handle twice, not once. *)
Lemma observer_stopped_once_fails :
  filter is_handle_stop (calls (Scenario.after Scenario.plain [Stop]))
  <> [handle_stop].
Proof. vm_compute. discriminate. Qed.

(** C8, amended.  For every subscription whose handler returned, and
    whatever ticks and diff events came before, the stop calls `stop()` on
    the observe handle exactly twice, once from each of the two registered
    stop callbacks; the handle has then been stopped, and a diff event that
    arrives afterwards makes no call. *)
Theorem observer_stop_called_twice self searchDefinition options uid inputs :
  is_String_or_Object searchDefinition = true ->
  permission (_indexConfiguration self) (<["userId" := uid]> options) = true ->
  checkSearchParam (_engine self) searchDefinition (_indexConfiguration self) = true ->
  forallb (fun i => negb (is_stop i)) inputs = true ->
  let s := snd (run self (inputs ++ [Stop])
                  (snd (publish self searchDefinition options (new_session uid)))) in
  filter is_handle_stop (calls s) = [handle_stop; handle_stop]
  /\ (exists h, resultsHandle s = Some h /\ obs_stops h = 2%nat)
  /\ forall ev collection, step self (Diff ev collection) s = (Ok tt, s).
Proof.
  intros Hc Hp Hs Hq. cbn zeta.
  rewrite (publish_ok _ _ _ _ Hc Hp Hs). cbn [snd].
  rewrite run_app.
  destruct (run_streaming self inputs (published self searchDefinition options uid) Hq)
    as (cs & -> & Hcs).
  pose proof (emit_streaming cs _ (published_streaming self searchDefinition options uid))
    as Hstr.
  cbn [run]. unfold mbind, M_bind. rewrite step_stop, (stop_streaming _ Hstr).
  cbn [skip mret M_ret snd]. split; [|split].
  - unfold stopped. cbn [calls emit]. rewrite !filter_app.
    rewrite published_no_handle_stop, (filter_handle_stop_control cs Hcs).
    unfold stop_calls. destruct (intervalID _); reflexivity.
  - destruct Hstr as (_ & _ & _ & h & Hrh & Hstops).
    unfold stopped. cbn [resultsHandle]. rewrite Hrh. eexists. split; [reflexivity|].
    simpl. by rewrite Hstops.
  - intros ev collection. rewrite step_diff, (diff_after_stop _ _ _ _ Hstr).
    by rewrite emit_nil.
Qed.

Lemma observer_stop_called_twice_witness :
  let inputs := [Tick 1%nat Scenario.cursor1;
                 Diff (removedAt Scenario.docB 1) Scenario.store] in
  let s := snd (run Scenario.both (inputs ++ [Stop])
                  (snd (publish Scenario.both (JStr "cat") ∅ (new_session (JStr "u1"))))) in
  filter is_handle_stop (calls s) = [handle_stop; handle_stop]
  /\ (exists h, resultsHandle s = Some h /\ obs_stops h = 2%nat)
  /\ forall ev collection, step Scenario.both (Diff ev collection) s = (Ok tt, s).
Proof.
  exact (observer_stop_called_twice Scenario.both (JStr "cat") ∅ (JStr "u1")
           [Tick 1%nat Scenario.cursor1; Diff (removedAt Scenario.docB 1) Scenario.store]
           eq_refl eq_refl eq_refl eq_refl).
Defined.

(* ===================================================================== *)
(* The messages of the handler                                             *)
(* ===================================================================== *)

(** C2, the claim as stated fails: the first three messages of a
    subscription whose result is A, B, C are not the three `added`
    messages of the result; the first one is the count record. *)
Lemma initial_result_not_first :
  let s := Scenario.subscribed Scenario.plain ∅ in
  take 3 (messages s)
    <> initial_messages Scenario.plain (Some (quote "cat")) None
         [Scenario.docA; Scenario.docB; Scenario.docC] 0
  /\ head (messages s)
     = Some (added "players/easySearch" (JStr ("searchCount" ++ quote "cat"))
               {[ "count" := JNum 3 ]}).
Proof. vm_compute. split; [discriminate|reflexivity]. Qed.

(** C2, amended.  When the handler returns, its messages are, in this
    order: the `added` of the count record, once and unconditionally; the
    `added` of the aggregation record, once, when the cursor has
    aggregations; one `added` per document of the initial result, in the
    order of the result, the i-th stamped with position i; and `ready`.
    The two synthetic records come before the initial result, not after
    it. *)
Theorem publish_messages self searchDefinition options uid :
  is_String_or_Object searchDefinition = true ->
  permission (_indexConfiguration self) (<["userId" := uid]> options) = true ->
  checkSearchParam (_engine self) searchDefinition (_indexConfiguration self) = true ->
  let r := publish self searchDefinition options (new_session uid) in
  let cursor := search (_engine self) searchDefinition (<["userId" := uid]> options)
                  (_indexConfiguration self) in
  let dS := stringify searchDefinition in
  let oS := stringify (prop options "props") in
  fst r = Ok tt
  /\ messages (snd r)
     = ([added (_name self) (count_key dS) {[ "count" := JNum (cursor_count cursor) ]}]
        ++ (if truthy (_aggs cursor)
            then [added (_name self) (aggs_key dS) {[ "aggs" := _aggs cursor ]}]
            else [])
        ++ imap (fun i doc => initial_message self dS oS (Z.of_nat i) doc)
             (mongoCursor_docs cursor)
        ++ [ready])%list.
Proof.
  intros Hc Hp Hs. cbn zeta. rewrite (publish_ok _ _ _ _ Hc Hp Hs).
  split; [reflexivity|]. cbn [snd]. unfold messages, published. cbn [calls].
  rewrite !filter_app, initial_messages_are_messages, initial_messages_imap.
  repeat match goal with |- context [if ?b then _ else _] => destruct b end;
    reflexivity.
Qed.

Lemma publish_messages_witness :
  let r := publish Scenario.both (JStr "cat") ∅ (new_session (JStr "u1")) in
  fst r = Ok tt
  /\ messages (snd r)
     = ([added (_name Scenario.both) (count_key (stringify (JStr "cat")))
           {[ "count" := JNum 3 ]}]
        ++ [added (_name Scenario.both) (aggs_key (stringify (JStr "cat")))
              {[ "aggs" := Scenario.facets0 ]}]
        ++ imap (fun i doc =>
                   initial_message Scenario.both (stringify (JStr "cat"))
                     (stringify (prop ∅ "props")) (Z.of_nat i) doc)
             [Scenario.docA; Scenario.docB; Scenario.docC]
        ++ [ready])%list.
Proof.
  exact (publish_messages Scenario.both (JStr "cat") ∅ (JStr "u1")
           eq_refl eq_refl eq_refl).
Defined.

(** C3, the claim as stated fails: a document moved to the end of the
    result has `before` null, nothing is looked up, and exactly one
    `changed` call is made. *)
Lemma movedTo_single_message :
  let cs := calls (snd (on_movedTo Scenario.plain (Some (quote "cat")) None
                          Scenario.store Scenario.docA 0 2 JNull
                          (new_session (JStr "u1")))) in
  cs = [changed "players/easySearch" (JStr ("A" ++ quote "cat" ++ "undefined"))
          (restamped (Some (quote "cat")) None Scenario.docA 2)]
  /\ List.length cs <> 2%nat.
Proof. vm_compute. split; [reflexivity|discriminate]. Qed.

(** The scenario of a document moved from index 2 to index 0, before A:
    first A with position 2, then the moved document with position 0. *)
Example movedTo_two_messages :
  calls (snd (on_movedTo Scenario.plain (Some (quote "cat")) None Scenario.store
                Scenario.docC 2 0 (JStr "A") (new_session (JStr "u1"))))
  = [changed "players/easySearch" (JStr ("A" ++ quote "cat" ++ "undefined"))
       (restamped (Some (quote "cat")) None Scenario.docA 2);
     changed "players/easySearch" (JStr ("C" ++ quote "cat" ++ "undefined"))
       (restamped (Some (quote "cat")) None Scenario.docC 0)].
Proof. vm_compute. reflexivity. Qed.

(** C3, amended.  A `movedTo(doc, fromIndex, toIndex, before)` event makes
    one `changed` call for the moved document, stamped with `toIndex`.
    Only when `before` is the id of a document of the collection does it
    make a second `changed` call, for that document, stamped with
    `fromIndex` (the index the moved document left); that call comes
    first.  With `before` null, or an id the collection does not hold, the
    event makes the single call. *)
Theorem movedTo_messages self dS oS collection doc fromIndex toIndex before s :
  let d := restamped dS oS
             (beforePublish (_engine self) (movedTo doc fromIndex toIndex before))
             toIndex in
  d !! "__sortPosition" = Some (JNum toIndex)
  /\ match findOne collection before with
     | Some beforeDoc =>
         let b := restamped dS oS beforeDoc fromIndex in
         b !! "__sortPosition" = Some (JNum fromIndex)
         /\ on_movedTo self dS oS collection doc fromIndex toIndex before s
            = (Ok tt, emit [changed (_name self) (generateId b) b;
                            changed (_name self) (generateId d) d] s)
     | None =>
         on_movedTo self dS oS collection doc fromIndex toIndex before s
         = (Ok tt, emit [changed (_name self) (generateId d) d] s)
     end.
Proof.
  cbn zeta. split; [apply lookup_insert_eq|].
  pose proof (on_event_emit self dS oS collection
                (movedTo doc fromIndex toIndex before) s) as H.
  cbn [on_event event_calls] in H.
  destruct (findOne collection before) as [beforeDoc|].
  - split; [apply lookup_insert_eq|exact H].
  - exact H.
Qed.

(* ===================================================================== *)
(* Identities                                                              *)
(* ===================================================================== *)

Lemma string_app_assoc (s1 s2 s3 : string) : (s1 ++ s2) ++ s3 = s1 ++ (s2 ++ s3).
Proof.
  induction s1 as [|c s1 IH]; [reflexivity|].
  change (String c ((s1 ++ s2) ++ s3) = String c (s1 ++ (s2 ++ s3))).
  by rewrite IH.
Qed.

Lemma toString_toPrimitive v : toString (toPrimitive v) = toString v.
Proof. destruct v; reflexivity. Qed.

Lemma js_plus_string x v : js_plus (JStr x) v = JStr (x ++ toString v).
Proof. unfold js_plus. cbn [toPrimitive]. by rewrite toString_toPrimitive. Qed.

(** For a document whose `_id` is a string, generateId is the plain
    concatenation of the id and the two stamps. *)
Lemma generateId_string doc id :
  doc !! "_id" = Some (JStr id) ->
  generateId doc
  = JStr (id ++ toString (prop doc "__searchDefinition")
             ++ toString (prop doc "__searchOptions")).
Proof.
  intros H. unfold generateId.
  replace (prop doc "_id") with (JStr id) by (unfold prop; by rewrite H).
  rewrite !js_plus_string. f_equal. apply string_app_assoc.
Qed.

(** The same document id under two fingerprints: the keys are equal only
    if the two concatenations of definition and options stamps are. *)
Lemma generateId_same_id d1 d2 id :
  d1 !! "_id" = Some (JStr id) -> d2 !! "_id" = Some (JStr id) ->
  generateId d1 = generateId d2 ->
  toString (prop d1 "__searchDefinition") ++ toString (prop d1 "__searchOptions")
  = toString (prop d2 "__searchDefinition") ++ toString (prop d2 "__searchOptions").
Proof.
  intros H1 H2. rewrite (generateId_string _ _ H1), (generateId_string _ _ H2).
  intros [= H]. by apply String.app_inj in H.
Qed.

(** C4 (the code departs from the claim).  generateId concatenates the id
    and the two fingerprint strings without a separator.  Take the search
    definitions a-quote-b and b (two strings), the document whose id is x
    under the first, and the document whose id is x-quote-a-backslash under
    the second: they differ in their id and in their fingerprint, and are
    published under the same key. *)
Theorem generateId_collision :
  let doc1 : Doc := {[ "_id" := JStr "x" ]} in
  let doc2 : Doc := {[ "_id" := JStr ("x" ++ dquote ++ "a" ++ bslash) ]} in
  let dS1 := stringify (JStr ("a" ++ dquote ++ "b")) in
  let dS2 := stringify (JStr "b") in
  let d1 := stamped Scenario.plain dS1 None (addedAt doc1 0 JNull) 0 in
  let d2 := stamped Scenario.plain dS2 None (addedAt doc2 0 JNull) 0 in
  prop d1 "__originalId" <> prop d2 "__originalId"
  /\ prop d1 "__searchDefinition" <> prop d2 "__searchDefinition"
  /\ generateId d1
     = JStr ("x" ++ dquote ++ "a" ++ bslash ++ dquote ++ "b" ++ dquote ++ "undefined")
  /\ generateId d2 = generateId d1.
Proof. vm_compute. repeat split; try discriminate; reflexivity. Qed.

(** C5, the claim as stated fails: two subscriptions to the same search
    definition with different `options.props` put their count record under
    one and the same key. *)
Lemma count_key_shared :
  let o1 : Doc := {[ "props" := JObj [("genre", JStr "rock")] ]} in
  let o2 : Doc := {[ "props" := JObj [("genre", JStr "jazz")] ]} in
  stringify (prop o1 "props") <> stringify (prop o2 "props")
  /\ ~ (first_message_id (Scenario.subscribed Scenario.plain o1)
        <> first_message_id (Scenario.subscribed Scenario.plain o2)).
Proof. vm_compute. split; [discriminate|]. intros H. apply H. reflexivity. Qed.

(** C5, amended.  The key of the count record is
    'searchCount' + JSON.stringify(searchDefinition): it is made from the
    search definition alone, `options.props` is no part of it.  Two
    subscriptions to one search definition, whatever their options and
    users, publish their count record under the same key, and that is the
    key `_getCount` reads on the client. *)
Theorem count_key_from_definition self searchDefinition options1 options2 uid1 uid2 :
  is_String_or_Object searchDefinition = true ->
  permission (_indexConfiguration self) (<["userId" := uid1]> options1) = true ->
  permission (_indexConfiguration self) (<["userId" := uid2]> options2) = true ->
  checkSearchParam (_engine self) searchDefinition (_indexConfiguration self) = true ->
  let key := js_plus (JStr "searchCount") (of_ostring (stringify searchDefinition)) in
  first_message_id (snd (publish self searchDefinition options1 (new_session uid1)))
  = Some key
  /\ first_message_id (snd (publish self searchDefinition options2 (new_session uid2)))
     = Some key
  /\ forall _collection,
       _getCount _collection searchDefinition
       = match findOne _collection key with
         | Some countDoc => prop countDoc "count"
         | None => JUndefined
         end.
Proof.
  intros Hc Hp1 Hp2 Hs. cbn zeta.
  rewrite (publish_ok _ _ _ _ Hc Hp1 Hs), (publish_ok _ _ _ _ Hc Hp2 Hs).
  repeat split.
Qed.

Lemma count_key_from_definition_witness :
  let o1 : Doc := {[ "props" := JObj [("genre", JStr "rock")] ]} in
  let o2 : Doc := {[ "props" := JObj [("genre", JStr "jazz")] ]} in
  let key := js_plus (JStr "searchCount") (of_ostring (stringify (JStr "cat"))) in
  first_message_id (snd (publish Scenario.both (JStr "cat") o1 (new_session (JStr "u1"))))
  = Some key
  /\ first_message_id (snd (publish Scenario.both (JStr "cat") o2 (new_session (JStr "u2"))))
     = Some key
  /\ forall _collection,
       _getCount _collection (JStr "cat")
       = match findOne _collection key with
         | Some countDoc => prop countDoc "count"
         | None => JUndefined
         end.
Proof.
  exact (count_key_from_definition Scenario.both (JStr "cat")
           {[ "props" := JObj [("genre", JStr "rock")] ]}
           {[ "props" := JObj [("genre", JStr "jazz")] ]}
           (JStr "u1") (JStr "u2") eq_refl eq_refl eq_refl eq_refl).
Defined.

(* ===================================================================== *)
(* The refresh ticks                                                       *)
(* ===================================================================== *)

(** The aggregation tick reads nothing: whatever the cursor holds when it
    fires, it sends the value its closure captured. *)
Lemma aggs_tick_constant self s h dS aggs cursor :
  intervals s !! h = Some (AggsTick dS aggs) ->
  step self (Tick h cursor) s
  = (Ok tt, emit [changed (_name self) (aggs_key dS) {[ "aggs" := aggs ]}] s).
Proof. intros H. rewrite step_tick. unfold tick_calls. by rewrite H. Qed.

(** C6 (the code departs from the claim).  The subscription starts when
    the cursor's aggregations are `facets0`.  When the aggregation interval
    fires the cursor holds `facets1`, and the tick calls `this.changed` for
    the aggregation record with `facets0` again: the callback sends the
    constant `aggs` read at subscribe time and recomputes nothing. *)
Theorem aggs_tick_sends_captured_value :
  let s := Scenario.subscribed Scenario.both ∅ in
  intervals s !! 2%nat = Some (AggsTick (Some (quote "cat")) Scenario.facets0)
  /\ _aggs Scenario.cursor1 = Scenario.facets1
  /\ Scenario.facets1 <> Scenario.facets0
  /\ calls (snd (step Scenario.both (Tick 2%nat Scenario.cursor1) s))
     = (calls s ++ [changed "players/easySearch" (JStr ("aggs" ++ quote "cat"))
                     {[ "aggs" := Scenario.facets0 ]}])%list.
Proof. vm_compute. repeat split; try discriminate; reflexivity. Qed.

(** C10.  In every session that starts from a fresh publication context,
    after any ticks, diff events and stops, a firing count interval sends
    `cursor.count() || 0`: the context has no property `mongoCount`, so the
    branch on `cursor.mongoCursor.count()` is never taken, whatever the
    `mongoCount` of the collection. *)
Theorem count_tick_ignores_mongoCount self searchDefinition options uid inputs
    h dS cursor :
  let s := snd (run self inputs
                  (snd (publish self searchDefinition options (new_session uid)))) in
  intervals s !! h = Some (CountTick dS) ->
  this_mongoCount s = JUndefined
  /\ step self (Tick h cursor) s
     = (Ok tt, emit [changed (_name self) (count_key dS)
                       {[ "count" := js_or (JNum (cursor_count cursor)) (JNum 0) ]}] s).
Proof.
  cbn zeta. intros H.
  pose proof (this_mongoCount_undefined self searchDefinition options uid inputs) as Hm.
  split; [exact Hm|].
  rewrite step_tick. unfold tick_calls. rewrite H, Hm. reflexivity.
Qed.

Lemma count_tick_ignores_mongoCount_witness :
  let inputs := [Diff (removedAt Scenario.docB 1) Scenario.store;
                 Tick 2%nat Scenario.cursor1] in
  let s := snd (run Scenario.both inputs
                  (snd (publish Scenario.both (JStr "cat") ∅ (new_session (JStr "u1"))))) in
  mongoCount Scenario.both = true
  /\ mongoCursor_count Scenario.cursor1 = 8
  /\ this_mongoCount s = JUndefined
  /\ step Scenario.both (Tick 1%nat Scenario.cursor1) s
     = (Ok tt, emit [changed (_name Scenario.both) (count_key (Some (quote "cat")))
                       {[ "count" := js_or (JNum 4) (JNum 0) ]}] s).
Proof.
  split; [reflexivity|]. split; [reflexivity|].
  exact (count_tick_ignores_mongoCount Scenario.both (JStr "cat") ∅ (JStr "u1")
           [Diff (removedAt Scenario.docB 1) Scenario.store; Tick 2%nat Scenario.cursor1]
           1%nat (Some (quote "cat")) Scenario.cursor1 eq_refl).
Defined.

(* ===================================================================== *)
(* The permission check                                                    *)
(* ===================================================================== *)

(** C7.  When `permission(options)` returns false the handler throws
    not-allowed; up to then it made no call but the permission check
    itself: no message, no call of the engine (neither checkSearchParam nor
    search nor observe), no interval, no stop callback, no observe
    handle. *)
Theorem permission_denied self searchDefinition options uid :
  is_String_or_Object searchDefinition = true ->
  permission (_indexConfiguration self) (<["userId" := uid]> options) = false ->
  let r := publish self searchDefinition options (new_session uid) in
  fst r = Throw not_allowed
  /\ calls (snd r) = [permission_call (<["userId" := uid]> options)]
  /\ messages (snd r) = []
  /\ filter is_engine_call (calls (snd r)) = []
  /\ intervals (snd r) = ∅
  /\ stopCallbacks (snd r) = []
  /\ resultsHandle (snd r) = None.
Proof.
  intros Hc Hp. cbn zeta. unfold publish, mbind, M_bind.
  rewrite Hc. cbn [skip mret M_ret get new_session userId]. rewrite Hp.
  run_m. repeat split.
Qed.

Lemma permission_denied_witness :
  let self := Scenario.index false (JNum 1000) (JNum 5000) true in
  let r := publish self (JStr "cat") ∅ (new_session (JStr "u1")) in
  fst r = Throw not_allowed
  /\ calls (snd r) = [permission_call (<["userId" := JStr "u1"]> ∅)]
  /\ messages (snd r) = []
  /\ filter is_engine_call (calls (snd r)) = []
  /\ intervals (snd r) = ∅
  /\ stopCallbacks (snd r) = []
  /\ resultsHandle (snd r) = None.
Proof.
  exact (permission_denied (Scenario.index false (JNum 1000) (JNum 5000) true)
           (JStr "cat") ∅ (JStr "u1") eq_refl eq_refl).
Defined.

(* ===================================================================== *)
(* find on the client                                                      *)
(* ===================================================================== *)







Section Numbered.

(** Documents whose `__sortPosition` is a number, and their order. *)
Local Abbreviation numbered :=
  (fun doc : Doc => exists n, doc !! "__sortPosition" = Some (JNum n)).

Local Abbreviation ascending :=
  (fun d1 d2 : Doc => forall a b,
     d1 !! "__sortPosition" = Some (JNum a) ->
     d2 !! "__sortPosition" = Some (JNum b) -> a <= b).

Local Abbreviation at_position n :=
  (fun doc : Doc => doc !! "__sortPosition" = Some (JNum n)).




End Numbered.




(* ===================================================================== *)
(* addCustomFields                                                         *)
(* ===================================================================== *)

Lemma addCustomFields_cons doc k v data :
  addCustomFields doc ((k, v) :: data) = addCustomFields (<["__" ++ k := v]> doc) data.
Proof. reflexivity. Qed.


Lemma addCustomFields_other doc data key :
  (forall k, k ∈ map fst data -> key <> "__" ++ k) ->
  addCustomFields doc data !! key = doc !! key.
Proof.
  revert doc. induction data as [|[k v] rest IH]; intros doc H; [reflexivity|].
  rewrite addCustomFields_cons, IH.
  - apply lookup_insert_ne. intros E. apply (H k); [left|done].
  - intros k' Hk'. apply H. by right.
Qed.

(** addCustomFields writes only properties whose name starts with two
    underscores: every other property of the document, `_id` among them,
    is read back as it was. *)
Theorem addCustomFields_keeps_plain_properties doc data key :
  (forall k, key <> "__" ++ k) ->
  addCustomFields doc data !! key = doc !! key.
Proof. intros H. apply addCustomFields_other. intros k _. apply H. Qed.

Lemma addCustomFields_keeps_plain_properties_witness :
  addCustomFields Scenario.docA
    [("searchDefinition", JStr "q"); ("sortPosition", JNum 4)] !! "_id"
  = Scenario.docA !! "_id".
Proof.
  apply addCustomFields_keeps_plain_properties.
  intros k. discriminate.
Defined.



(* ===================================================================== *)
(* The keys of a subscription                                              *)
(* ===================================================================== *)

Lemma string_app_nil_r (s : string) : s ++ EmptyString = s.
Proof.
  induction s as [|c s IH]; [reflexivity|].
  change (String c (s ++ EmptyString) = String c s). by rewrite IH.
Qed.

Lemma string_length_app (s t : string) :
  String.length (s ++ t) = (String.length s + String.length t)%nat.
Proof.
  induction s as [|c s IH]; [reflexivity|].
  change (S (String.length (s ++ t)) = S (String.length s + String.length t)).
  by rewrite IH.
Qed.

(** Concatenation cancels on the right. *)
Lemma string_app_inv_tail (s1 s2 t : string) : s1 ++ t = s2 ++ t -> s1 = s2.
Proof.
  revert s2. induction s1 as [|c1 s1 IH]; intros [|c2 s2] H.
  - reflexivity.
  - apply (f_equal String.length) in H.
    change (String.length t = S (String.length (s2 ++ t))) in H.
    rewrite string_length_app in H. lia.
  - apply (f_equal String.length) in H.
    change (S (String.length (s1 ++ t)) = String.length t) in H.
    rewrite string_length_app in H. lia.
  - change (String c1 (s1 ++ t) = String c2 (s2 ++ t)) in H.
    injection H as -> H. f_equal. by apply IH.
Qed.

(** Within one subscription (one pair of fingerprints) the key is
    injective in the document id: two documents with string ids that are
    published under the same key have the same id. *)
Theorem generateId_injective_in_id d1 d2 id1 id2 :
  d1 !! "_id" = Some (JStr id1) -> d2 !! "_id" = Some (JStr id2) ->
  prop d1 "__searchDefinition" = prop d2 "__searchDefinition" ->
  prop d1 "__searchOptions" = prop d2 "__searchOptions" ->
  generateId d1 = generateId d2 -> id1 = id2.
Proof.
  intros H1 H2 Hd Ho.
  rewrite (generateId_string _ _ H1), (generateId_string _ _ H2), Hd, Ho.
  intros [= H]. by apply string_app_inv_tail in H.
Qed.

Lemma generateId_injective_in_id_witness :
  let d1 := restamped (Some (quote "cat")) None Scenario.docA 0 in
  let d2 := restamped (Some (quote "cat")) None Scenario.docA 5 in
  generateId d1 = generateId d2 /\ "A" = "A".
Proof.
  split; [reflexivity|].
  exact (generateId_injective_in_id
           (restamped (Some (quote "cat")) None Scenario.docA 0)
           (restamped (Some (quote "cat")) None Scenario.docA 5)
           "A" "A" eq_refl eq_refl eq_refl eq_refl eq_refl).
Defined.

Lemma generateId_same_id_witness :
  let d1 := restamped (Some (quote "cat")) None Scenario.docA 0 in
  let d2 := restamped (Some (quote "cat")) None Scenario.docA 5 in
  toString (prop d1 "__searchDefinition") ++ toString (prop d1 "__searchOptions")
  = toString (prop d2 "__searchDefinition") ++ toString (prop d2 "__searchOptions").
Proof.
  exact (generateId_same_id
           (restamped (Some (quote "cat")) None Scenario.docA 0)
           (restamped (Some (quote "cat")) None Scenario.docA 5)
           "A" eq_refl eq_refl eq_refl).
Defined.

Lemma prop_insert_ne (doc : Doc) k k' v : k <> k' -> prop (<[k := v]> doc) k' = prop doc k'.
Proof. intros H. unfold prop. by rewrite lookup_insert_ne. Qed.

Lemma prop_insert_eq (doc : Doc) k v : prop (<[k := v]> doc) k = v.
Proof. unfold prop. by rewrite lookup_insert_eq. Qed.

Lemma generateId_stamped self dS oS ev i :
  generateId (stamped self dS oS ev i)
  = key_of dS oS (prop (beforePublish (_engine self) ev) "_id").
Proof.
  unfold generateId, stamped, key_of.
  rewrite !(prop_insert_ne _ _ "_id") by discriminate.
  rewrite (prop_insert_ne _ "__originalId" "__searchDefinition") by discriminate.
  rewrite (prop_insert_ne _ "__sortPosition" "__searchDefinition") by discriminate.
  rewrite (prop_insert_ne _ "__searchOptions" "__searchDefinition") by discriminate.
  rewrite prop_insert_eq.
  rewrite (prop_insert_ne _ "__originalId" "__searchOptions") by discriminate.
  rewrite (prop_insert_ne _ "__sortPosition" "__searchOptions") by discriminate.
  by rewrite prop_insert_eq.
Qed.

Lemma generateId_restamped dS oS doc i :
  generateId (restamped dS oS doc i) = key_of dS oS (prop doc "_id").
Proof.
  unfold generateId, restamped, key_of.
  rewrite !(prop_insert_ne _ _ "_id") by discriminate.
  rewrite (prop_insert_ne _ "__sortPosition" "__searchDefinition") by discriminate.
  rewrite (prop_insert_ne _ "__searchOptions" "__searchDefinition") by discriminate.
  rewrite prop_insert_eq.
  rewrite (prop_insert_ne _ "__sortPosition" "__searchOptions") by discriminate.
  by rewrite prop_insert_eq.
Qed.

Lemma generateId_unstamped dS oS (doc : Doc) :
  generateId (<["__searchOptions" := of_ostring oS]>
                (<["__searchDefinition" := of_ostring dS]> doc))
  = key_of dS oS (prop doc "_id").
Proof.
  unfold generateId, key_of.
  rewrite !(prop_insert_ne _ _ "_id") by discriminate.
  rewrite (prop_insert_ne _ "__searchOptions" "__searchDefinition") by discriminate.
  by rewrite !prop_insert_eq.
Qed.

(** The message an observe callback sends for the document of its event
    is keyed by the `_id` of the hook's result and the two fingerprints
    only: not by the position, not by the kind of the event, not by any
    other property.  So the added, changed, moved and removed messages of
    one document address one record, as long as the hook keeps its
    `_id`. *)
Theorem event_key_stable self dS oS collection1 collection2 ev1 ev2 :
  prop (beforePublish (_engine self) ev1) "_id"
  = prop (beforePublish (_engine self) ev2) "_id" ->
  call_id <$> last (event_calls self dS oS collection1 ev1)
  = call_id <$> last (event_calls self dS oS collection2 ev2).
Proof.
  intros H.
  assert (K : forall collection ev,
             call_id <$> last (event_calls self dS oS collection ev)
             = Some (Some (key_of dS oS (prop (beforePublish (_engine self) ev) "_id")))).
  { intros collection [doc i b|doc old i|doc f t b|doc i]; cbn [event_calls].
    - cbn. by rewrite generateId_stamped.
    - cbn. by rewrite generateId_stamped.
    - rewrite last_snoc. cbn. by rewrite generateId_restamped.
    - cbn. by rewrite generateId_unstamped. }
  by rewrite !K, H.
Qed.

Lemma event_key_stable_witness :
  call_id <$> last (event_calls Scenario.plain (Some (quote "cat")) None Scenario.store
                      (addedAt Scenario.docC 2 JNull))
  = call_id <$> last (event_calls Scenario.plain (Some (quote "cat")) None Scenario.store
                        (movedTo Scenario.docC 2 0 (JStr "A"))).
Proof.
  exact (event_key_stable Scenario.plain (Some (quote "cat")) None
           Scenario.store Scenario.store
           (addedAt Scenario.docC 2 JNull) (movedTo Scenario.docC 2 0 (JStr "A"))
           eq_refl).
Defined.

(* ===================================================================== *)
(* From the stamps of the server to the selector of the client             *)
(* ===================================================================== *)

Lemma field_equals_of_ostring (doc : Doc) key o :
  doc !! key = Some (of_ostring o) -> field_equals doc key o = true.
Proof.
  intros H. unfold field_equals. rewrite H.
  destruct o as [s|]; [|reflexivity]. apply String.eqb_refl.
Qed.

Lemma field_equals_other (doc : Doc) key o1 o2 :
  doc !! key = Some (of_ostring o1) -> o1 <> o2 -> field_equals doc key o2 = false.
Proof.
  intros H Hne. unfold field_equals. rewrite H.
  destruct o1 as [s1|], o2 as [s2|]; cbn; try reflexivity; [|done].
  apply String.eqb_neq. congruence.
Qed.

Lemma stamped_definition self dS oS ev i :
  stamped self dS oS ev i !! "__searchDefinition" = Some (of_ostring dS).
Proof.
  unfold stamped. rewrite !lookup_insert_ne by discriminate. apply lookup_insert_eq.
Qed.

Lemma stamped_options self dS oS ev i :
  stamped self dS oS ev i !! "__searchOptions" = Some (of_ostring oS).
Proof.
  unfold stamped. rewrite !lookup_insert_ne by discriminate. apply lookup_insert_eq.
Qed.

Lemma restamped_definition dS oS doc i :
  restamped dS oS doc i !! "__searchDefinition" = Some (of_ostring dS).
Proof.
  unfold restamped. rewrite !lookup_insert_ne by discriminate. apply lookup_insert_eq.
Qed.

Lemma restamped_options dS oS doc i :
  restamped dS oS doc i !! "__searchOptions" = Some (of_ostring oS).
Proof.
  unfold restamped. rewrite !lookup_insert_ne by discriminate. apply lookup_insert_eq.
Qed.

(** The documents the handler passes to `this.added` and `this.changed`
    for a search definition and options satisfy the selector that `find`
    builds from the same search definition and options, also when
    `options.props` is undefined. *)
Theorem published_documents_selected self searchDefinition (options : Doc) ev i doc :
  let dS := stringify searchDefinition in
  let oS := stringify (prop options "props") in
  selected searchDefinition options (stamped self dS oS ev i) = true
  /\ selected searchDefinition options (restamped dS oS doc i) = true.
Proof.
  cbn zeta. unfold selected. split; apply andb_true_iff; split;
    apply field_equals_of_ostring;
    auto using stamped_definition, stamped_options,
      restamped_definition, restamped_options.
Qed.

(** A document published for one query is not selected by `find` for a
    query whose search definition or whose `options.props` serialise
    differently. *)
Theorem published_documents_isolated self def1 (options1 : Doc) def2 (options2 : Doc)
    ev i doc :
  stringify def1 <> stringify def2
  \/ stringify (prop options1 "props") <> stringify (prop options2 "props") ->
  let dS := stringify def1 in
  let oS := stringify (prop options1 "props") in
  selected def2 options2 (stamped self dS oS ev i) = false
  /\ selected def2 options2 (restamped dS oS doc i) = false.
Proof.
  cbn zeta. intros H. unfold selected. split; apply andb_false_iff; destruct H as [H|H].
  - left. eapply field_equals_other; [apply stamped_definition|exact H].
  - right. eapply field_equals_other; [apply stamped_options|exact H].
  - left. eapply field_equals_other; [apply restamped_definition|exact H].
  - right. eapply field_equals_other; [apply restamped_options|exact H].
Qed.

Lemma published_documents_isolated_witness :
  let dS := stringify (JStr "cat") in
  let oS := stringify (prop (∅ : Doc) "props") in
  selected (JStr "dog") ∅
    (stamped Scenario.plain dS oS (addedAt Scenario.docA 0 JNull) 0) = false
  /\ selected (JStr "dog") ∅ (restamped dS oS Scenario.docB 1) = false.
Proof.
  refine (published_documents_isolated Scenario.plain (JStr "cat") ∅ (JStr "dog") ∅
            (addedAt Scenario.docA 0 JNull) 0 Scenario.docB (or_introl _)).
  discriminate.
Defined.

(** The transform of the client cursor undoes the stamps of the server:
    the engine's transform receives the hook's document without
    `__searchDefinition`, `__searchOptions` and `__sortPosition`, and with
    `__originalId`, which the transform does not delete. *)
Theorem cursor_transform_stamped self dS oS ev i :
  let doc := beforePublish (_engine self) ev in
  cursor_transform self (stamped self dS oS ev i)
  = transform (_engine self)
      (<["__originalId" := prop doc "_id"]>
         (delete "__sortPosition"
            (delete "__searchOptions" (delete "__searchDefinition" doc)))).
Proof.
  cbn zeta. unfold cursor_transform, stamped. f_equal.
  apply map_eq. intros k.
  destruct (decide (k = "__sortPosition")) as [->|H1].
  { rewrite lookup_delete_eq, lookup_insert_ne by discriminate.
    by rewrite lookup_delete_eq. }
  rewrite lookup_delete_ne by done.
  destruct (decide (k = "__searchOptions")) as [->|H2].
  { rewrite lookup_delete_eq, lookup_insert_ne by discriminate.
    rewrite lookup_delete_ne by discriminate. by rewrite lookup_delete_eq. }
  rewrite lookup_delete_ne by done.
  destruct (decide (k = "__searchDefinition")) as [->|H3].
  { rewrite lookup_delete_eq, lookup_insert_ne by discriminate.
    rewrite !lookup_delete_ne by discriminate. by rewrite lookup_delete_eq. }
  rewrite lookup_delete_ne by done.
  destruct (decide (k = "__originalId")) as [->|H4].
  { by rewrite !lookup_insert_eq. }
  rewrite !lookup_insert_ne by done.
  by rewrite !lookup_delete_ne by done.
Qed.

(** What `observe` does before it returns, in full.  After the `observe`
    call itself it makes exactly one `added` call per document the cursor
    holds, in the cursor's order and nothing else; the call for the i-th
    document (counting from 0) carries the result of the `addedAt` hook
    for it with its four stamps, `__sortPosition` being i, under the key
    made of the `_id` of the hook's result and the two fingerprints; and
    the handle it returns saw no `stop()` yet. *)
Theorem initial_positions self dS oS cursor s :
  mongoCursor_observe self dS oS cursor s
  = (Ok {| obs_definitionString := dS; obs_optionsString := oS; obs_stops := 0 |},
     emit (observe
             :: imap (fun i doc =>
                        let hooked := beforePublish (_engine self)
                                        (addedAt doc (Z.of_nat i) JNull) in
                        added (_name self) (key_of dS oS (prop hooked "_id"))
                          (<["__originalId" := prop hooked "_id"]>
                             (<["__sortPosition" := JNum (Z.of_nat i)]>
                                (<["__searchOptions" := of_ostring oS]>
                                   (<["__searchDefinition" := of_ostring dS]> hooked)))))
                  (mongoCursor_docs cursor)) s).
Proof.
  unfold mongoCursor_observe. run_m. rewrite initial_adds_emit. run_m.
  rewrite emit_emit. do 2 f_equal. cbn [app]. f_equal.
  rewrite initial_messages_imap. apply imap_ext. intros i doc _. cbn beta.
  unfold initial_message. cbn zeta. rewrite generateId_stamped.
  rewrite Z.add_0_l. reflexivity.
Qed.

(* ===================================================================== *)
(* The outcomes of the handler                                             *)
(* ===================================================================== *)

(** The handler in closed form: the three checks in the order of the
    source, then the session of a subscription. *)
Lemma publish_outcome self searchDefinition options uid :
  let options' : Doc := <["userId" := uid]> options in
  publish self searchDefinition options (new_session uid)
  = if is_String_or_Object searchDefinition then
      if permission (_indexConfiguration self) options' then
        if checkSearchParam (_engine self) searchDefinition (_indexConfiguration self)
        then (Ok tt, published self searchDefinition options uid)
        else (Throw engine_error,
              emit [permission_call options'; checkSearchParam_call searchDefinition]
                (new_session uid))
      else (Throw not_allowed, emit [permission_call options'] (new_session uid))
    else (Throw Match_Error, new_session uid).
Proof.
  cbn zeta.
  destruct (is_String_or_Object searchDefinition) eqn:Hc.
  - destruct (permission _ _) eqn:Hp.
    + destruct (checkSearchParam _ _ _) eqn:Hs.
      * by apply publish_ok.
      * unfold publish, mbind, M_bind.
        rewrite Hc. cbn [skip mret M_ret get new_session userId]. rewrite Hp.
        run_m. rewrite Hs. reflexivity.
    + unfold publish, mbind, M_bind.
      rewrite Hc. cbn [skip mret M_ret get new_session userId]. rewrite Hp.
      reflexivity.
  - unfold publish, mbind, M_bind. rewrite Hc. reflexivity.
Qed.

(** Whatever makes the handler throw, it throws before it acquired
    anything: no message was sent, the only calls made are the permission
    check and the parameter check, no interval runs, no stop callback is
    registered and nothing is observed. *)
Theorem publish_failure_is_clean self searchDefinition options uid e :
  let r := publish self searchDefinition options (new_session uid) in
  fst r = Throw e ->
  messages (snd r) = []
  /\ filter is_precheck (calls (snd r)) = calls (snd r)
  /\ intervals (snd r) = ∅
  /\ stopCallbacks (snd r) = []
  /\ resultsHandle (snd r) = None.
Proof.
  cbn zeta. rewrite publish_outcome. cbn zeta.
  destruct (is_String_or_Object searchDefinition);
    [destruct (permission _ _); [destruct (checkSearchParam _ _ _)|]|];
    cbn [fst snd]; intros H; try discriminate H; repeat split.
Qed.

Lemma publish_failure_is_clean_witness :
  let self := Scenario.index false (JNum 1000) (JNum 5000) true in
  let r := publish self (JStr "cat") ∅ (new_session (JStr "u1")) in
  messages (snd r) = []
  /\ filter is_precheck (calls (snd r)) = calls (snd r)
  /\ intervals (snd r) = ∅
  /\ stopCallbacks (snd r) = []
  /\ resultsHandle (snd r) = None.
Proof.
  exact (publish_failure_is_clean (Scenario.index false (JNum 1000) (JNum 5000) true)
           (JStr "cat") ∅ (JStr "u1") not_allowed eq_refl).
Defined.

(** A search definition that is neither a string nor an object is refused
    with a Match error before anything else happens: the permission
    function is not called and the session is untouched. *)
Theorem publish_rejects_definition self searchDefinition options uid :
  is_String_or_Object searchDefinition = false ->
  publish self searchDefinition options (new_session uid)
  = (Throw Match_Error, new_session uid).
Proof. intros H. rewrite publish_outcome. cbn zeta. by rewrite H. Qed.

Lemma publish_rejects_definition_witness :
  publish Scenario.both (JArr [JStr "cat"]) ∅ (new_session (JStr "u1"))
  = (Throw Match_Error, new_session (JStr "u1")).
Proof.
  exact (publish_rejects_definition Scenario.both (JArr [JStr "cat"]) ∅ (JStr "u1")
           eq_refl).
Defined.

(** When the engine refuses the search parameter, the handler throws
    after the permission check and before the search: `engine.search` is
    never called. *)
Theorem publish_rejects_search_param self searchDefinition options uid :
  is_String_or_Object searchDefinition = true ->
  permission (_indexConfiguration self) (<["userId" := uid]> options) = true ->
  checkSearchParam (_engine self) searchDefinition (_indexConfiguration self) = false ->
  let r := publish self searchDefinition options (new_session uid) in
  fst r = Throw engine_error
  /\ calls (snd r) = [permission_call (<["userId" := uid]> options);
                      checkSearchParam_call searchDefinition].
Proof.
  intros Hc Hp Hs. cbn zeta. rewrite publish_outcome. cbn zeta.
  rewrite Hc, Hp, Hs. split; reflexivity.
Qed.

Lemma publish_rejects_search_param_witness :
  let strict : ReactiveEngine :=
    {| indexName := None; checkSearchParam := fun _ _ => false;
       search := fun _ _ _ => Scenario.cursor0;
       beforePublish := Scenario.hook; transform := fun doc => doc |} in
  let self := {| _indexConfiguration := _indexConfiguration Scenario.both;
                 _engine := strict; mongoCount := true |} in
  let r := publish self (JStr "cat") ∅ (new_session (JStr "u1")) in
  fst r = Throw engine_error
  /\ calls (snd r) = [permission_call (<["userId" := JStr "u1"]> ∅);
                      checkSearchParam_call (JStr "cat")].
Proof.
  exact (publish_rejects_search_param
           {| _indexConfiguration := _indexConfiguration Scenario.both;
              _engine := {| indexName := None; checkSearchParam := fun _ _ => false;
                            search := fun _ _ _ => Scenario.cursor0;
                            beforePublish := Scenario.hook;
                            transform := fun doc => doc |};
              mongoCount := true |}
           (JStr "cat") ∅ (JStr "u1") eq_refl eq_refl eq_refl).
Defined.

(* ===================================================================== *)
(* Streaming and teardown, in general                                      *)
(* ===================================================================== *)

(** Ticks and diff events never touch the timers, the stop callbacks, the
    observe handle or the state of the subscription: until a stop
    arrives, a session only gains added, changed and removed calls. *)
Theorem streaming_only_sends self inputs s :
  forallb (fun i => negb (is_stop i)) inputs = true ->
  let r := run self inputs s in
  fst r = Ok tt
  /\ intervals (snd r) = intervals s
  /\ stopCallbacks (snd r) = stopCallbacks s
  /\ resultsHandle (snd r) = resultsHandle s
  /\ intervalID (snd r) = intervalID s
  /\ deactivated (snd r) = deactivated s
  /\ exists cs, calls (snd r) = (calls s ++ cs)%list /\ filter is_control cs = [].
Proof.
  intros Hq. cbn zeta.
  destruct (run_streaming self inputs s Hq) as (cs & -> & Hcs).
  repeat split. exists cs. by split.
Qed.

Lemma streaming_only_sends_witness :
  let s := Scenario.subscribed Scenario.both ∅ in
  let r := run Scenario.both
             [Tick 1%nat Scenario.cursor1;
              Diff (movedTo Scenario.docC 2 0 (JStr "A")) Scenario.store] s in
  fst r = Ok tt
  /\ intervals (snd r) = intervals s
  /\ stopCallbacks (snd r) = stopCallbacks s
  /\ resultsHandle (snd r) = resultsHandle s
  /\ intervalID (snd r) = intervalID s
  /\ deactivated (snd r) = deactivated s
  /\ exists cs, calls (snd r) = (calls s ++ cs)%list /\ filter is_control cs = [].
Proof.
  exact (streaming_only_sends Scenario.both
           [Tick 1%nat Scenario.cursor1;
            Diff (movedTo Scenario.docC 2 0 (JStr "A")) Scenario.store]
           (Scenario.subscribed Scenario.both ∅) eq_refl).
Defined.

Lemma published_no_clearInterval self searchDefinition options uid :
  filter is_clearInterval (calls (published self searchDefinition options uid)) = [].
Proof.
  unfold published. cbn [calls].
  rewrite !filter_app, (filter_clearInterval_control (initial_messages _ _ _ _ _))
    by apply initial_messages_control.
  repeat match goal with |- context [if ?b then _ else _] => destruct b end;
    reflexivity.
Qed.

Lemma run_then_stop self searchDefinition options uid inputs :
  forallb (fun i => negb (is_stop i)) inputs = true ->
  exists cs,
    filter is_control cs = []
    /\ forall rest,
         run self (inputs ++ Stop :: rest) (published self searchDefinition options uid)
         = run self rest
             (stopped (emit cs (published self searchDefinition options uid))).
Proof.
  intros Hq.
  destruct (run_streaming self inputs (published self searchDefinition options uid) Hq)
    as (cs & Hrun & Hcs).
  exists cs. split; [exact Hcs|]. intros rest.
  rewrite run_app, Hrun. cbn [run]. unfold mbind, M_bind.
  rewrite step_stop, stop_streaming; [reflexivity|].
  apply emit_streaming, published_streaming.
Qed.

(** What a stop clears.  The first stop callback clears the one handle
    `intervalID` holds: the aggregation interval when it was started, else
    the count interval when it was started, else nothing.  So Meteor ends
    up holding no interval, except the count interval when both were
    started. *)
Theorem teardown_clears_one_handle self searchDefinition options uid inputs :
  is_String_or_Object searchDefinition = true ->
  permission (_indexConfiguration self) (<["userId" := uid]> options) = true ->
  checkSearchParam (_engine self) searchDefinition (_indexConfiguration self) = true ->
  forallb (fun i => negb (is_stop i)) inputs = true ->
  let config := _indexConfiguration self in
  let cursor := search (_engine self) searchDefinition (<["userId" := uid]> options) config in
  let count_on := truthy (countUpdateIntervalMs config) in
  let aggs_on := truthy (_aggs cursor) && truthy (aggsUpdateIntervalMs config) in
  let s := snd (run self (inputs ++ [Stop])
                  (snd (publish self searchDefinition options (new_session uid)))) in
  filter is_clearInterval (calls s)
  = (if aggs_on then [clearInterval (if count_on then 2%nat else 1%nat)]
     else if count_on then [clearInterval 1%nat] else [])
  /\ intervals s
     = if count_on && aggs_on
       then {[ 1%nat := CountTick (stringify searchDefinition) ]} else ∅.
Proof.
  intros Hc Hp Hs Hq. cbn zeta. rewrite (publish_ok _ _ _ _ Hc Hp Hs). cbn [snd].
  destruct (run_then_stop self searchDefinition options uid inputs Hq)
    as (cs & Hcs & Hrun).
  rewrite Hrun. cbn [run skip mret M_ret snd]. split.
  - unfold stopped. cbn [calls emit]. rewrite !filter_app.
    rewrite published_no_clearInterval, (filter_clearInterval_control cs Hcs).
    unfold stop_calls, published. cbn [intervalID].
    repeat match goal with |- context [if ?b then _ else _] => destruct b end;
      reflexivity.
  - apply intervals_after_stop.
Qed.

Lemma teardown_clears_one_handle_witness :
  let s := snd (run Scenario.both ([Tick 1%nat Scenario.cursor1] ++ [Stop])
                  (snd (publish Scenario.both (JStr "cat") ∅ (new_session (JStr "u1"))))) in
  filter is_clearInterval (calls s) = [clearInterval 2%nat]
  /\ intervals s = {[ 1%nat := CountTick (stringify (JStr "cat")) ]}.
Proof.
  exact (teardown_clears_one_handle Scenario.both (JStr "cat") ∅ (JStr "u1")
           [Tick 1%nat Scenario.cursor1] eq_refl eq_refl eq_refl eq_refl).
Defined.

(** When at most one of the two intervals was started, the stop is
    final: whatever ticks, diff events and stops follow, the session stays
    exactly as the stop left it and no further call is made. *)
Theorem teardown_is_final self searchDefinition options uid inputs rest :
  is_String_or_Object searchDefinition = true ->
  permission (_indexConfiguration self) (<["userId" := uid]> options) = true ->
  checkSearchParam (_engine self) searchDefinition (_indexConfiguration self) = true ->
  truthy (countUpdateIntervalMs (_indexConfiguration self))
  && (truthy (_aggs (search (_engine self) searchDefinition
                       (<["userId" := uid]> options) (_indexConfiguration self)))
      && truthy (aggsUpdateIntervalMs (_indexConfiguration self))) = false ->
  forallb (fun i => negb (is_stop i)) inputs = true ->
  let s0 := snd (publish self searchDefinition options (new_session uid)) in
  run self (inputs ++ Stop :: rest) s0 = run self (inputs ++ [Stop]) s0.
Proof.
  intros Hc Hp Hs Hone Hq. cbn zeta. rewrite (publish_ok _ _ _ _ Hc Hp Hs). cbn [snd].
  destruct (run_then_stop self searchDefinition options uid inputs Hq)
    as (cs & Hcs & Hrun).
  rewrite !Hrun. cbn [run skip mret M_ret].
  apply run_after_clean_stop.
  - apply emit_streaming, published_streaming.
  - rewrite intervals_after_stop. cbn zeta. by rewrite Hone.
Qed.

Lemma teardown_is_final_witness :
  let self := Scenario.index true (JNum 1000) JUndefined true in
  let s0 := snd (publish self (JStr "cat") ∅ (new_session (JStr "u1"))) in
  run self ([Tick 1%nat Scenario.cursor1]
            ++ Stop :: [Tick 1%nat Scenario.cursor1;
                        Diff (removedAt Scenario.docA 0) Scenario.store; Stop]) s0
  = run self ([Tick 1%nat Scenario.cursor1] ++ [Stop]) s0.
Proof.
  exact (teardown_is_final (Scenario.index true (JNum 1000) JUndefined true)
           (JStr "cat") ∅ (JStr "u1") [Tick 1%nat Scenario.cursor1]
           [Tick 1%nat Scenario.cursor1;
            Diff (removedAt Scenario.docA 0) Scenario.store; Stop]
           eq_refl eq_refl eq_refl eq_refl eq_refl).
Defined.

(** The count refresh updates the record the handler added.  With
    `countUpdateIntervalMs` configured, the interval of handle 1 is the
    count interval, and until a stop each firing sends one `changed` for
    the key of the count record of this subscription, with the count the
    cursor reports at that time (0 included). *)
Theorem count_refresh_updates_count_record self searchDefinition options uid inputs cursor :
  is_String_or_Object searchDefinition = true ->
  permission (_indexConfiguration self) (<["userId" := uid]> options) = true ->
  checkSearchParam (_engine self) searchDefinition (_indexConfiguration self) = true ->
  truthy (countUpdateIntervalMs (_indexConfiguration self)) = true ->
  forallb (fun i => negb (is_stop i)) inputs = true ->
  let s0 := snd (publish self searchDefinition options (new_session uid)) in
  let s := snd (run self inputs s0) in
  first_message_id s0 = Some (count_key (stringify searchDefinition))
  /\ step self (Tick 1%nat cursor) s
     = (Ok tt, emit [changed (_name self) (count_key (stringify searchDefinition))
                       {[ "count" := JNum (cursor_count cursor) ]}] s).
Proof.
  intros Hc Hp Hs Hon Hq. cbn zeta. rewrite (publish_ok _ _ _ _ Hc Hp Hs). cbn [snd].
  split; [reflexivity|].
  destruct (run_streaming self inputs (published self searchDefinition options uid) Hq)
    as (cs & -> & _).
  rewrite step_tick. unfold tick_calls. cbn [snd emit intervals this_mongoCount].
  unfold published. cbn [intervals this_mongoCount]. rewrite Hon.
  destruct (truthy (_aggs _) && truthy (aggsUpdateIntervalMs _));
    [rewrite lookup_insert_ne by done|]; rewrite lookup_singleton_eq;
    cbn [truthy]; by rewrite js_or_zero.
Qed.

Lemma count_refresh_updates_count_record_witness :
  let s0 := snd (publish Scenario.both (JStr "cat") ∅ (new_session (JStr "u1"))) in
  let s := snd (run Scenario.both [Tick 2%nat Scenario.cursor1] s0) in
  first_message_id s0 = Some (count_key (stringify (JStr "cat")))
  /\ step Scenario.both (Tick 1%nat Scenario.cursor1) s
     = (Ok tt, emit [changed (_name Scenario.both) (count_key (stringify (JStr "cat")))
                       {[ "count" := JNum 4 ]}] s).
Proof.
  exact (count_refresh_updates_count_record Scenario.both (JStr "cat") ∅ (JStr "u1")
           [Tick 2%nat Scenario.cursor1] Scenario.cursor1
           eq_refl eq_refl eq_refl eq_refl eq_refl).
Defined.

(* ===================================================================== *)
(* What the calls after the handler can be                                 *)
(* ===================================================================== *)

Section Appends.

Variable self : SearchCollection.
Variable P : Call -> Prop.

Hypothesis P_handle_stop : P handle_stop.
Hypothesis P_clearInterval : forall h, P (clearInterval h).
Hypothesis P_added : forall id fields, P (added (_name self) id fields).
Hypothesis P_changed : forall id fields, P (changed (_name self) id fields).
Hypothesis P_removed : forall id, P (removed (_name self) id).

Lemma appends_ret {A} (a : A) : appends P (mret a).
Proof. intros s. exists []. split; [by rewrite app_nil_r|constructor]. Qed.

Lemma appends_throw {A} e : appends P (@throw A e).
Proof. intros s. exists []. split; [by rewrite app_nil_r|constructor]. Qed.

Lemma appends_get : appends P get.
Proof. intros s. exists []. split; [by rewrite app_nil_r|constructor]. Qed.

Lemma appends_bind {A B} (m : M A) (f : A -> M B) :
  appends P m -> (forall a, appends P (f a)) -> appends P (m ≫= f).
Proof.
  intros Hm Hf s. unfold mbind, M_bind. destruct (Hm s) as (cs1 & E1 & F1).
  destruct (m s) as [[a|e] s']; cbn [snd] in *.
  - destruct (Hf a s') as (cs2 & E2 & F2). exists (cs1 ++ cs2)%list. split.
    + by rewrite E2, E1, app_assoc.
    + by apply Forall_app.
  - by exists cs1.
Qed.

Lemma appends_modify f :
  (forall s, calls (f s) = calls s) -> appends P (modify f).
Proof.
  intros H s. exists []. split; [|constructor]. cbn. by rewrite H, app_nil_r.
Qed.

Lemma appends_log c : P c -> appends P (log c).
Proof. intros H s. exists [c]. split; [reflexivity|by constructor]. Qed.

Lemma appends_clearInterval h : appends P (Meteor_clearInterval h).
Proof using P_clearInterval.
  unfold Meteor_clearInterval. apply appends_bind.
  - by apply appends_modify.
  - intros _. by apply appends_log.
Qed.

Lemma appends_resultsHandle_stop h : appends P (resultsHandle_stop h).
Proof using P_handle_stop.
  unfold resultsHandle_stop. apply appends_bind.
  - by apply appends_modify.
  - intros _. by apply appends_log.
Qed.

Lemma appends_run_stop cb : appends P (run_stop cb).
Proof using P_handle_stop P_clearInterval.
  destruct cb; unfold run_stop.
  - apply appends_bind; [apply appends_get|intros s1].
    apply appends_bind.
    { destruct (intervalID s1); [apply appends_clearInterval|apply appends_ret]. }
    intros _. apply appends_bind.
    { destruct (intervalAggsID s1); [apply appends_clearInterval|apply appends_ret]. }
    intros _. apply appends_bind; [apply appends_get|intros s2].
    destruct (resultsHandle s2); [apply appends_resultsHandle_stop|apply appends_ret].
  - apply appends_bind; [apply appends_get|intros s1].
    destruct (resultsHandle s1); [apply appends_resultsHandle_stop|apply appends_throw].
Qed.

Lemma appends_run_stops cbs : appends P (run_stops cbs).
Proof using P_handle_stop P_clearInterval.
  induction cbs as [|cb rest IH]; [apply appends_ret|].
  cbn [run_stops]. apply appends_bind; [apply appends_run_stop|intros _; exact IH].
Qed.

Lemma appends_stop : appends P stop.
Proof using P_handle_stop P_clearInterval.
  unfold stop. apply appends_bind; [apply appends_get|intros s1].
  destruct (deactivated s1); [apply appends_ret|].
  apply appends_bind; [by apply appends_modify|intros _; apply appends_run_stops].
Qed.

Lemma tick_calls_P s h cursor : Forall P (tick_calls self s h cursor).
Proof using P_changed.
  unfold tick_calls. destruct (intervals s !! h) as [[?|? ?]|]; repeat constructor; auto.
Qed.

Lemma event_calls_P dS oS collection ev : Forall P (event_calls self dS oS collection ev).
Proof using P_added P_changed P_removed.
  destruct ev as [doc i b|doc old i|doc f t b|doc i]; cbn [event_calls];
    try (repeat constructor; auto).
  destruct (findOne collection b); repeat constructor; auto.
Qed.

Lemma diff_calls_P s collection ev : Forall P (diff_calls self s collection ev).
Proof using P_added P_changed P_removed.
  unfold diff_calls. destruct (resultsHandle s) as [h|]; [|constructor].
  destruct (Nat.eqb (obs_stops h) 0); [apply event_calls_P|constructor].
Qed.

Lemma appends_step i : appends P (step self i).
Proof using All.
  intros s. destruct i as [h cursor|ev collection|].
  - rewrite step_tick. eexists. split; [reflexivity|apply tick_calls_P].
  - rewrite step_diff. eexists. split; [reflexivity|apply diff_calls_P].
  - rewrite step_stop. apply appends_stop.
Qed.

Lemma appends_run inputs : appends P (run self inputs).
Proof using All.
  induction inputs as [|i rest IH]; [apply appends_ret|].
  cbn [run]. apply appends_bind; [apply appends_step|intros _; exact IH].
Qed.

End Appends.

Lemma initial_messages_addressed self dS oS docs k :
  Forall (addressed_to (_name self)) (initial_messages self dS oS docs k).
Proof.
  revert k. induction docs as [|doc rest IH]; intros k; [constructor|].
  cbn [initial_messages]. constructor; [reflexivity|apply IH].
Qed.

Lemma published_addressed self searchDefinition options uid :
  Forall (addressed_to (_name self)) (calls (published self searchDefinition options uid)).
Proof.
  unfold published. cbn [calls]. rewrite !Forall_app. repeat split.
  - repeat constructor.
  - destruct (truthy _); repeat constructor.
  - destruct (truthy _); repeat constructor.
  - destruct (_ && _); repeat constructor.
  - repeat constructor.
  - apply initial_messages_addressed.
  - repeat constructor.
Qed.

(** Every added, changed and removed call of a subscription, from the
    handler, from the intervals and from the observe callbacks, before
    and after a stop, names the collection `this.name` of the search
    collection: the name `find` subscribes to and reads from on the
    client.  No other collection is ever written. *)
Theorem messages_address_own_collection self searchDefinition options uid inputs :
  Forall (addressed_to (_name self))
    (calls (snd (run self inputs
                   (snd (publish self searchDefinition options (new_session uid)))))).
Proof.
  destruct (appends_run self (addressed_to (_name self)) I (fun _ => I)
              (fun _ _ => eq_refl) (fun _ _ => eq_refl) (fun _ => eq_refl) inputs
              (snd (publish self searchDefinition options (new_session uid))))
    as (cs & -> & Hcs).
  apply Forall_app. split; [|exact Hcs].
  rewrite publish_outcome. cbn zeta.
  destruct (is_String_or_Object searchDefinition);
    [destruct (permission _ _); [destruct (checkSearchParam _ _ _)|]|]; cbn [snd].
  - apply published_addressed.
  - repeat constructor.
  - repeat constructor.
  - constructor.
Qed.

Lemma filter_is_ready_nil cs :
  Forall (fun c => is_ready c = false) cs -> filter is_ready cs = [].
Proof.
  induction 1 as [|c cs Hc _ IH]; [reflexivity|].
  rewrite filter_cons_False; [exact IH|]. rewrite Hc. exact id.
Qed.

Lemma initial_messages_not_ready self dS oS docs k :
  Forall (fun c => is_ready c = false) (initial_messages self dS oS docs k).
Proof.
  revert k. induction docs as [|doc rest IH]; intros k; [constructor|].
  cbn [initial_messages]. constructor; [reflexivity|apply IH].
Qed.

(** `ready` is signalled exactly once per subscription: by the handler,
    as its last call, and never again by a tick, a diff event or a
    stop. *)
Theorem ready_exactly_once self searchDefinition options uid inputs :
  is_String_or_Object searchDefinition = true ->
  permission (_indexConfiguration self) (<["userId" := uid]> options) = true ->
  checkSearchParam (_engine self) searchDefinition (_indexConfiguration self) = true ->
  let s0 := snd (publish self searchDefinition options (new_session uid)) in
  last (calls s0) = Some ready
  /\ filter is_ready (calls (snd (run self inputs s0))) = [ready].
Proof.
  intros Hc Hp Hs. cbn zeta. rewrite (publish_ok _ _ _ _ Hc Hp Hs). cbn [snd].
  assert (Hpub : exists front,
             calls (published self searchDefinition options uid) = (front ++ [ready])%list
             /\ Forall (fun c => is_ready c = false) front).
  { unfold published. cbn [calls]. eexists. split.
    - rewrite !app_assoc. reflexivity.
    - rewrite !Forall_app. repeat split; try (repeat constructor).
      + destruct (truthy _); repeat constructor.
      + destruct (truthy _); repeat constructor.
      + destruct (_ && _); repeat constructor.
      + apply initial_messages_not_ready. }
  destruct Hpub as (front & Hfront & Hnot). split.
  - rewrite Hfront. apply last_snoc.
  - destruct (appends_run self (fun c => is_ready c = false) eq_refl (fun _ => eq_refl)
                (fun _ _ => eq_refl) (fun _ _ => eq_refl) (fun _ => eq_refl) inputs
                (published self searchDefinition options uid)) as (cs & -> & Hcs).
    rewrite Hfront, !filter_app, (filter_is_ready_nil _ Hnot), (filter_is_ready_nil _ Hcs).
    reflexivity.
Qed.

Lemma ready_exactly_once_witness :
  let s0 := snd (publish Scenario.both (JStr "cat") ∅ (new_session (JStr "u1"))) in
  let inputs := [Tick 1%nat Scenario.cursor1; Stop;
                 Diff (removedAt Scenario.docA 0) Scenario.store; Stop] in
  last (calls s0) = Some ready
  /\ filter is_ready (calls (snd (run Scenario.both inputs s0))) = [ready].
Proof.
  exact (ready_exactly_once Scenario.both (JStr "cat") ∅ (JStr "u1")
           [Tick 1%nat Scenario.cursor1; Stop;
            Diff (removedAt Scenario.docA 0) Scenario.store; Stop]
           eq_refl eq_refl eq_refl).
Defined.

(* ===================================================================== *)
(* The documents of find, and the name                                     *)
(* ===================================================================== *)


(** For one index configuration, two engines with non-empty index names
    give the same publication name only when their index names are the
    same. *)
Theorem name_injective_in_indexName self1 self2 i1 i2 :
  name (_indexConfiguration self1) = name (_indexConfiguration self2) ->
  indexName (_engine self1) = Some i1 -> indexName (_engine self2) = Some i2 ->
  i1 <> EmptyString -> i2 <> EmptyString ->
  _name self1 = _name self2 -> i1 = i2.
Proof.
  intros Hn H1 H2 Hne1 Hne2. unfold _name. rewrite Hn, H1, H2.
  apply String.eqb_neq in Hne1, Hne2. rewrite Hne1, Hne2.
  intros H. apply String.app_inj in H. by apply String.app_inj in H.
Qed.

Lemma name_injective_in_indexName_witness :
  let self :=
    {| _indexConfiguration := _indexConfiguration Scenario.both;
       _engine := {| indexName := Some "elastic"; checkSearchParam := fun _ _ => true;
                     search := fun _ _ _ => Scenario.cursor0;
                     beforePublish := Scenario.hook; transform := fun doc => doc |};
       mongoCount := true |} in
  _name self = "players/elastic" /\ "elastic" = "elastic".
Proof.
  split; [reflexivity|].
  refine (name_injective_in_indexName
            {| _indexConfiguration := _indexConfiguration Scenario.both;
               _engine := {| indexName := Some "elastic";
                             checkSearchParam := fun _ _ => true;
                             search := fun _ _ _ => Scenario.cursor0;
                             beforePublish := Scenario.hook;
                             transform := fun doc => doc |};
               mongoCount := true |}
            {| _indexConfiguration := _indexConfiguration Scenario.both;
               _engine := {| indexName := Some "elastic";
                             checkSearchParam := fun _ _ => true;
                             search := fun _ _ _ => Scenario.cursor0;
                             beforePublish := Scenario.hook;
                             transform := fun doc => doc |};
               mongoCount := false |}
            "elastic" "elastic" eq_refl eq_refl eq_refl _ _ eq_refl);
    discriminate.
Defined.

(** A cursor without aggregations gets no aggregation record and no
    aggregation interval, whatever `aggsUpdateIntervalMs` is: the handler
    sends the count record, the initial documents and ready, and the only
    interval it may start is the count interval. *)
Theorem no_aggregations_no_record self searchDefinition options uid :
  is_String_or_Object searchDefinition = true ->
  permission (_indexConfiguration self) (<["userId" := uid]> options) = true ->
  checkSearchParam (_engine self) searchDefinition (_indexConfiguration self) = true ->
  let cursor := search (_engine self) searchDefinition (<["userId" := uid]> options)
                  (_indexConfiguration self) in
  truthy (_aggs cursor) = false ->
  let s := snd (publish self searchDefinition options (new_session uid)) in
  let dS := stringify searchDefinition in
  messages s
  = (added (_name self) (count_key dS) {[ "count" := JNum (cursor_count cursor) ]}
     :: initial_messages self dS (stringify (prop options "props"))
          (mongoCursor_docs cursor) 0
     ++ [ready])%list
  /\ forall h definitionString aggs,
       intervals s !! h <> Some (AggsTick definitionString aggs).
Proof.
  intros Hc Hp Hs. cbn zeta. intros Hagg.
  rewrite (publish_ok _ _ _ _ Hc Hp Hs). cbn [snd]. split.
  - unfold messages, published. cbn [calls]. rewrite Hagg. cbn [andb].
    rewrite !filter_app, initial_messages_are_messages.
    destruct (truthy (countUpdateIntervalMs _)); reflexivity.
  - intros h dS aggs. unfold published. cbn [intervals]. rewrite Hagg. cbn [andb].
    destruct (truthy (countUpdateIntervalMs _)).
    + destruct (decide (h = 1%nat)) as [->|Hne].
      * rewrite lookup_singleton_eq. discriminate.
      * rewrite lookup_singleton_ne by done. discriminate.
    + rewrite lookup_empty. discriminate.
Qed.

Lemma no_aggregations_no_record_witness :
  let bare : Cursor :=
    {| cursor_count := 1; mongoCursor_count := 1; _aggs := JUndefined;
       mongoCursor_docs := [Scenario.docA] |} in
  let self :=
    {| _indexConfiguration := _indexConfiguration Scenario.both;
       _engine := {| indexName := None; checkSearchParam := fun _ _ => true;
                     search := fun _ _ _ => bare;
                     beforePublish := Scenario.hook; transform := fun doc => doc |};
       mongoCount := true |} in
  let s := snd (publish self (JStr "cat") ∅ (new_session (JStr "u1"))) in
  let dS := stringify (JStr "cat") in
  messages s
  = (added (_name self) (count_key dS) {[ "count" := JNum 1 ]}
     :: initial_messages self dS (stringify (prop (∅ : Doc) "props")) [Scenario.docA] 0
     ++ [ready])%list
  /\ forall h definitionString aggs,
       intervals s !! h <> Some (AggsTick definitionString aggs).
Proof.
  exact (no_aggregations_no_record
           {| _indexConfiguration := _indexConfiguration Scenario.both;
              _engine := {| indexName := None; checkSearchParam := fun _ _ => true;
                            search := fun _ _ _ =>
                              {| cursor_count := 1; mongoCursor_count := 1;
                                 _aggs := JUndefined;
                                 mongoCursor_docs := [Scenario.docA] |};
                            beforePublish := Scenario.hook;
                            transform := fun doc => doc |};
              mongoCount := true |}
           (JStr "cat") ∅ (JStr "u1") eq_refl eq_refl eq_refl eq_refl).
Defined.

